(** * tern/analyze/docker/dockerfile.py: Dockerfile information retrieval
      and modification

    A shallow embedding of the module and the properties of its
    substitution, pinning and annotation passes.

    Text is a [string]: a sequence of 8-bit characters standing for the code
    points below 256.  On such text the case-insensitive regular expression
    [" as"] of [update_parent_images] matches exactly the four ASCII spellings
    of "as" after a space. *)

From Stdlib Require Import String Ascii List Bool Arith Lia.
Import ListNotations.
Open Scope list_scope.
Open Scope string_scope.

(** ** Python string built-ins used by the module *)

Module Str.

(** [s.startswith(p)] *)
Fixpoint startswith (s p : string) {struct p} : bool :=
  match p with
  | EmptyString => true
  | String a p' =>
      match s with
      | EmptyString => false
      | String b s' => Ascii.eqb a b && startswith s' p'
      end
  end.

(** [s[n:]] *)
Fixpoint drop (n : nat) (s : string) : string :=
  match n, s with
  | O, _ => s
  | S _, EmptyString => EmptyString
  | S k, String _ s' => drop k s'
  end.

(** [p in s] *)
Fixpoint contains (s p : string) : bool :=
  startswith s p ||
  match s with
  | EmptyString => false
  | String _ s' => contains s' p
  end.

(** [c in s] for a single character *)
Fixpoint has_char (c : ascii) (s : string) : bool :=
  match s with
  | EmptyString => false
  | String a s' => Ascii.eqb a c || has_char c s'
  end.

(** The scan of [s.replace(old, new)] for a non-empty [old]: left to
    right, non-overlapping.  [skip] counts the characters of a matched
    occurrence that are still to be passed over. *)
Fixpoint replace_from (old new : string) (skip : nat) (s : string) : string :=
  match s with
  | EmptyString => EmptyString
  | String c s' =>
      match skip with
      | S k => replace_from old new k s'
      | O =>
          if startswith s old
          then new ++ replace_from old new (String.length old - 1) s'
          else String c (replace_from old new 0 s')
      end
  end.

(** [s.replace("", new)]: [new] before every character and at the end. *)
Fixpoint intersperse (new s : string) : string :=
  match s with
  | EmptyString => new
  | String c s' => new ++ String c (intersperse new s')
  end.

(** [s.replace(old, new)] *)
Definition replace (s old new : string) : string :=
  match old with
  | EmptyString => intersperse new s
  | String _ _ => replace_from old new 0 s
  end.

(** [s.replace(old, new, 1)]: only the first occurrence. *)
Fixpoint replace_first (s old new : string) : string :=
  if startswith s old then new ++ drop (String.length old) s
  else match s with
       | EmptyString => EmptyString
       | String c s' => String c (replace_first s' old new)
       end.

(** [s.split(sep)] for a one-character separator: the pieces between the
    separators, [count(sep) + 1] of them. *)
Fixpoint split (s : string) (sep : ascii) : list string :=
  match s with
  | EmptyString => [EmptyString]
  | String c s' =>
      if Ascii.eqb c sep then EmptyString :: split s' sep
      else match split s' sep with
           | [] => [String c EmptyString]
           | w :: ws => String c w :: ws
           end
  end.

(** [s.lstrip(c)] for a one-character set *)
Fixpoint lstrip (s : string) (c : ascii) : string :=
  match s with
  | EmptyString => EmptyString
  | String a s' => if Ascii.eqb a c then lstrip s' c else s
  end.

(** [s.rstrip(c)] for a one-character set *)
Fixpoint rstrip (s : string) (c : ascii) : string :=
  match s with
  | EmptyString => EmptyString
  | String a s' =>
      match rstrip s' c with
      | EmptyString => if Ascii.eqb a c then EmptyString else String a EmptyString
      | t => String a t
      end
  end.

(** [s.strip(c)] for a one-character set *)
Definition strip (s : string) (c : ascii) : string := rstrip (lstrip s c) c.

(** [s.endswith(c)] for a single character *)
Fixpoint endswith_char (s : string) (c : ascii) : bool :=
  match s with
  | EmptyString => false
  | String a EmptyString => Ascii.eqb a c
  | String _ s' => endswith_char s' c
  end.

(** The characters the module names. *)
Definition dollar : ascii := "$"%char.
Definition space : ascii := " "%char.
Definition equals : ascii := "="%char.
Definition newline : ascii := "010"%char.
Definition nl : string := String newline EmptyString.

(** Truth value of a string: empty is false. *)
Definition truthy (s : string) : bool :=
  match s with EmptyString => false | String _ _ => true end.

End Str.

(** ** Data model *)

(** One entry of [dfobj.structure]: the keys of the parser's dictionary that
    the module reads and writes. *)
Record command : Type := Command {
  instruction : string;
  value : string;
  content : string
}.

(** A Python [dict] from names to text: keys are unique, iteration follows
    insertion order, assigning to a key that is present keeps its place. *)
Definition dict : Type := list (string * string).

Fixpoint dict_set (d : dict) (k v : string) : dict :=
  match d with
  | [] => [(k, v)]
  | (k', v') :: d' =>
      if String.eqb k' k then (k', v) :: d' else (k', v') :: dict_set d' k v
  end.

Fixpoint dict_get (d : dict) (k : string) : option string :=
  match d with
  | [] => None
  | (k', v') :: d' => if String.eqb k' k then Some v' else dict_get d' k
  end.

(** Truth value of [envs] / [prev_env]: [None] and the empty dict are false. *)
Definition dict_truthy (o : option dict) : bool :=
  match o with
  | Some (_ :: _) => true
  | _ => false
  end.

Definition items (o : option dict) : dict :=
  match o with
  | Some d => d
  | None => []
  end.

(** [class Dockerfile].  [structure] is the list the parser produced (the
    functions below all iterate over it). *)
Record Dockerfile : Type := MkDockerfile {
  structure : list command;
  envs : option dict;
  prev_env : option dict;
  filepath : string;
  parent_images : list string
}.

Definition set_structure (dfobj : Dockerfile) (st : list command) : Dockerfile :=
  {| structure := st;
     envs := envs dfobj;
     prev_env := prev_env dfobj;
     filepath := filepath dfobj;
     parent_images := parent_images dfobj |}.

Definition set_parent_images (dfobj : Dockerfile) (pis : list string) : Dockerfile :=
  {| structure := structure dfobj;
     envs := envs dfobj;
     prev_env := prev_env dfobj;
     filepath := filepath dfobj;
     parent_images := pis |}.

Definition tag_separator : string := ":".

Definition is_instruction (kw : string) (r : command) : bool :=
  String.eqb (instruction r) kw.

(** ** Variable substitution *)

(** One turn of the loop of [replace_env]: the pair of replacements for one
    key, on [content] and on [value]. *)
Definition replace_env_item (df_structure_dict : command) (kv : string * string)
  : command :=
  let (key, val) := kv in
  let envvar1 := "$" ++ key in
  let envvar2 := "${" ++ key ++ "}" in
  let content1 := Str.replace (content df_structure_dict) envvar1 val in
  let content2 := Str.replace content1 envvar2 val in
  let value1 := Str.replace (value df_structure_dict) envvar1 val in
  let value2 := Str.replace value1 envvar2 val in
  {| instruction := instruction df_structure_dict;
     value := value2;
     content := content2 |}.

Definition replace_env (key_value_dict : dict) (df_structure_dict : command)
  : command :=
  fold_left replace_env_item key_value_dict df_structure_dict.

(** [for obj in dfobj.structure: replace_env(d, obj)], the loop shared by
    [expand_vars] and [expand_arg]. *)
Definition replace_env_all (d : dict) (st : list command) : list command :=
  map (replace_env d) st.

Definition expand_vars (dfobj : Dockerfile) : Dockerfile :=
  let st1 :=
    if dict_truthy (envs dfobj)
    then replace_env_all (items (envs dfobj)) (structure dfobj)
    else structure dfobj in
  let st2 :=
    if dict_truthy (prev_env dfobj)
    then replace_env_all (items (prev_env dfobj)) st1
    else st1 in
  set_structure dfobj st2.

(** The first loop of [expand_arg]: the ARG instructions whose value has
    exactly one "=". *)
Definition arg_dict_step (arg_dict : dict) (instruction_desc : command) : dict :=
  if is_instruction "ARG" instruction_desc then
    match Str.split (value instruction_desc) Str.equals with
    | [k; v] => dict_set arg_dict (Str.strip k Str.space) (Str.strip v Str.space)
    | _ => arg_dict
    end
  else arg_dict.

Definition get_arg_dict (st : list command) : dict :=
  fold_left arg_dict_step st [].

(** Does [re.match(" as", s, re.IGNORECASE)] succeed at the head of [s]. *)
Definition matches_as (s : string) : bool :=
  match s with
  | String c0 (String c1 (String c2 _)) =>
      Ascii.eqb c0 " " &&
      (Ascii.eqb c1 "a" || Ascii.eqb c1 "A") &&
      (Ascii.eqb c2 "s" || Ascii.eqb c2 "S")
  | _ => false
  end.

(** [re.split(" as", s, flags=re.IGNORECASE)[0]]: the text before the first
    match, all of [s] when there is none. *)
Fixpoint re_split_as_head (s : string) : string :=
  if matches_as s then EmptyString
  else match s with
       | EmptyString => EmptyString
       | String c s' => String c (re_split_as_head s')
       end.

Definition update_parent_images_step (new_parent_list : list string)
  (cmd_dict : command) : list string :=
  if is_instruction "FROM" cmd_dict
  then (new_parent_list ++ [re_split_as_head (value cmd_dict)])%list
  else new_parent_list.

Definition update_parent_images (dfobj : Dockerfile) : Dockerfile :=
  set_parent_images dfobj (fold_left update_parent_images_step (structure dfobj) []).

Definition expand_arg (dfobj : Dockerfile) : Dockerfile :=
  let arg_dict := get_arg_dict (structure dfobj) in
  let st :=
    match arg_dict with
    | [] => structure dfobj
    | _ :: _ => replace_env_all arg_dict (structure dfobj)
    end in
  update_parent_images (set_structure dfobj st).

(** Modelled from the spec: the upstream driver that calls the two passes is
    not part of dockerfile.py; the specification fixes its order as the ENV
    pass first and the ARG pass second. *)
Definition expand_env_then_arg (dfobj : Dockerfile) : Dockerfile :=
  expand_arg (expand_vars dfobj).

(** ** Package pinning *)

Definition expand_package (command_dict : command)
  (package version pinning_separator : string) : command :=
  let value' :=
    Str.replace_first (value command_dict) package
      (package ++ pinning_separator ++ version) in
  {| instruction := instruction command_dict;
     value := value';
     content := instruction command_dict ++ " " ++ value' ++ Str.nl |}.

Definition get_run_layers (dfobj : Dockerfile) : list command :=
  filter (is_instruction "RUN") (structure dfobj).

(** ** External collaborators, log and exceptions *)

(** What [general.parse_image_string] returns; an absent part is the empty
    string. *)
Record image_ref : Type := ImageRef {
  name : string;
  tag : string;
  digest_type : string;
  digest : string
}.

(** The functions of other modules that the pinning and annotation stages
    call: [general.parse_image_string], [container.get_image],
    [container.get_image_digest] and [common.check_git_src]. *)
Class External : Type := {
  Image : Type;
  parse_image_string : string -> image_ref;
  get_image : string -> option Image;
  get_image_digest : Image -> string;
  check_git_src : string -> string
}.

Inductive exn : Type := IndexError.

Inductive result (A : Type) : Type :=
| Ok (a : A)
| Raise (e : exn).

Arguments Ok {A} a.
Arguments Raise {A} e.

Section Effects.

Context {ext : External}.

(** What a run leaves behind besides the object: the collaborator calls
    and the log records, in order. *)
Inductive event : Type :=
| GetImage (image_tag_string : string)
| GetImageDigest (image : Image)
| CheckGitSrc (dockerfile_path : string)
| LogError (msg : string)
| LogDebug (msg : string).

Record state : Type := State {
  df : Dockerfile;
  trace : list event
}.

(** A computation that mutates the object, appends to the trace and
    either returns or raises; what was mutated before a raise stays. *)
Definition M (A : Type) : Type := state -> result A * state.

Definition ret {A : Type} (a : A) : M A := fun s => (Ok a, s).

Definition bind {A B : Type} (m : M A) (f : A -> M B) : M B :=
  fun s =>
    match m s with
    | (Ok a, s') => f a s'
    | (Raise e, s') => (Raise e, s')
    end.

Definition raise {A : Type} (e : exn) : M A := fun s => (Raise e, s).

Definition emit (ev : event) : M unit :=
  fun s => (Ok tt, {| df := df s; trace := (trace s ++ [ev])%list |}).

Definition get_df : M Dockerfile := fun s => (Ok (df s), s).

Definition put_df (d : Dockerfile) : M unit :=
  fun s => (Ok tt, {| df := d; trace := trace s |}).

End Effects.

Notation "x <- m ;; k" := (bind m (fun x => k))
  (at level 61, m at next level, right associativity).
Notation "m ;;; k" := (bind m (fun _ => k))
  (at level 61, right associativity).

(** [l[i] = x] on a list. *)
Fixpoint list_update {A : Type} (l : list A) (i : nat) (x : A) : list A :=
  match l, i with
  | [], _ => []
  | _ :: l', O => x :: l'
  | y :: l', S j => y :: list_update l' j x
  end.

(** [enumerate(l)] counting from [k]. *)
Fixpoint enumerate_from {A : Type} (k : nat) (l : list A) : list (nat * A) :=
  match l with
  | [] => []
  | x :: l' => (k, x) :: enumerate_from (S k) l'
  end.

Definition enumerate {A : Type} (l : list A) : list (nat * A) := enumerate_from 0 l.

Section Stages.

Context {ext : External}.

(** [l[i]] with a non-negative index. *)
Definition index {A : Type} (l : list A) (i : nat) : M A :=
  match nth_error l i with
  | Some x => ret x
  | None => raise IndexError
  end.

Fixpoint for_each {A : Type} (l : list A) (body : A -> M unit) : M unit :=
  match l with
  | [] => ret tt
  | x :: l' => body x ;;; for_each l' body
  end.

Definition call_get_image (image_tag_string : string) : M (option Image) :=
  emit (GetImage image_tag_string) ;;; ret (get_image image_tag_string).

Definition call_get_image_digest (image : Image) : M string :=
  emit (GetImageDigest image) ;;; ret (get_image_digest image).

Definition call_check_git_src (dockerfile_path : string) : M string :=
  emit (CheckGitSrc dockerfile_path) ;;; ret (check_git_src dockerfile_path).

(** [dfobj.parent_images[i] = x] *)
Definition assign_parent_image (i : nat) (x : string) : M unit :=
  dfobj <- get_df ;;
  if Nat.ltb i (List.length (parent_images dfobj))
  then put_df (set_parent_images dfobj (list_update (parent_images dfobj) i x))
  else raise IndexError.

(** [dfobj.structure[i][field] = x], as an update [f] of the dictionary
    stored at index [i]. *)
Definition assign_field (i : nat) (f : command -> command) : M unit :=
  dfobj <- get_df ;;
  command_dict <- index (structure dfobj) i ;;
  put_df (set_structure dfobj (list_update (structure dfobj) i (f command_dict))).

Definition with_content (x : string) (r : command) : command :=
  {| instruction := instruction r; value := value r; content := x |}.

Definition with_value (x : string) (r : command) : command :=
  {| instruction := instruction r; value := x; content := content r |}.

Definition parse_from_image (dfobj : Dockerfile) : list image_ref :=
  map parse_image_string (parent_images dfobj).

(** Body of the first loop of [expand_from_images]. *)
Definition pin_parent_image (i : nat) (img : image_ref) : M unit :=
  if negb (Str.truthy (digest_type img)) && negb (Str.truthy (digest img)) then
    let tag' := if negb (Str.truthy (tag img)) then "latest" else tag img in
    image <- call_get_image (name img ++ tag_separator ++ tag') ;;
    match image with
    | Some image' =>
        image_digest <- call_get_image_digest image' ;;
        assign_parent_image i image_digest
    | None =>
        dfobj <- get_df ;;
        parent <- index (parent_images dfobj) i ;;
        emit (LogError ("Error pinning digest to '" ++ parent ++ "'. Image not found."))
    end
  else ret tt.

(** The second loop of [expand_from_images].  [command_dict] is the
    dictionary stored at [structure[i]]; the turns before [i] wrote to
    other indices only, so the enumerated list is the structure as it was
    when the loop started. *)
Fixpoint update_structure (l : list (nat * command)) (counter : nat) : M unit :=
  match l with
  | [] => ret tt
  | (i, command_dict) :: l' =>
      if is_instruction "FROM" command_dict then
        dfobj <- get_df ;;
        parent <- index (parent_images dfobj) counter ;;
        assign_field i (with_content (instruction command_dict ++ " " ++ parent ++ Str.nl)) ;;;
        dfobj' <- get_df ;;
        parent' <- index (parent_images dfobj') counter ;;
        assign_field i (with_value parent') ;;;
        update_structure l' (counter + 1)
      else update_structure l' counter
  end.

Definition expand_from_images : M unit :=
  dfobj <- get_df ;;
  let images := parse_from_image dfobj in
  for_each (enumerate images) (fun '(i, img) => pin_parent_image i img) ;;;
  dfobj' <- get_df ;;
  update_structure (enumerate (structure dfobj')) 0.

Definition find_git_info (line dockerfile_path : string) : M string :=
  let args := Str.split line Str.space in
  arg1 <- index args 1 ;;
  src_path <-
    (if Str.startswith arg1 "--chown" then
       (if Nat.ltb (List.length args) 4
        then emit (LogError "Invalid ADD command line") else ret tt) ;;;
       index args 2
     else
       (if Nat.ltb (List.length args) 3
        then emit (LogError "Invalid ADD command line") else ret tt) ;;;
       index args 1) ;;
  emit (LogDebug ("Parsed src_path is " ++ src_path)) ;;;
  comment_line <- call_check_git_src dockerfile_path ;;
  ret comment_line.

(** Body of the loop of [expand_add_command]. *)
Definition annotate_add (dockerfile_path : string) (i : nat) (command_dict : command)
  : M unit :=
  if is_instruction "ADD" command_dict then
    comment_line <- find_git_info (content command_dict) dockerfile_path ;;
    assign_field i
      (with_content (Str.strip (content command_dict) Str.newline
                     ++ " # " ++ comment_line ++ Str.nl)) ;;;
    assign_field i (with_value (value command_dict ++ " # " ++ comment_line))
  else ret tt.

Definition expand_add_command : M unit :=
  dfobj <- get_df ;;
  let dockerfile_path := filepath dfobj in
  for_each (enumerate (structure dfobj))
    (fun '(i, command_dict) => annotate_add dockerfile_path i command_dict).

Definition create_locked_dockerfile : M string :=
  expand_from_images ;;;
  expand_add_command ;;;
  dfobj <- get_df ;;
  ret (fold_left (fun dfile command_dict => dfile ++ content command_dict)
         (structure dfobj) "").

(** Running a stage on an object with an empty log. *)
Definition run {A : Type} (m : M A) (dfobj : Dockerfile) : result A * state :=
  m {| df := dfobj; trace := [] |}.

End Stages.

(** ** Predicates of the specification *)

(** The central invariant of an instruction record. *)
Definition content_consistent (r : command) : Prop :=
  content r = instruction r ++ " " ++ value r ++ Str.nl.

(** The same, allowing an annotation comment before the line terminator. *)
Definition content_reconstructible (r : command) : Prop :=
  content_consistent r \/
  exists comment,
    content r = instruction r ++ " " ++ value r ++ " # " ++ comment ++ Str.nl.

Definition count_from (st : list command) : nat :=
  List.length (filter (is_instruction "FROM") st).

(** [s] holds [$key] or [${key}]. *)
Definition mentions (s key : string) : bool :=
  Str.contains s ("$" ++ key) || Str.contains s ("${" ++ key ++ "}").

(** A field of [r] holds a variable of [d]. *)
Definition references (d : dict) (r : command) : bool :=
  existsb (fun kv => mentions (value r) (fst kv) || mentions (content r) (fst kv)) d.

(** [s] is [a], one reference to [key], then [b]; there is no other "$" in
    it, and no other key of [d] is spelled at that "$". *)
Definition sole_reference (d : dict) (key s a b : string) : Prop :=
  Str.has_char Str.dollar a = false /\
  Str.has_char Str.dollar b = false /\
  (s = a ++ "$" ++ key ++ b \/
   (s = a ++ "${" ++ key ++ "}" ++ b /\ Str.contains s ("$" ++ key) = false)) /\
  (forall k v, In (k, v) d -> k <> key -> mentions s k = false).

(** What one turn of the first loop of [expand_from_images] does with the
    entry [ref]: the entry it leaves and the events it appends. *)
Definition lookup_key (img : image_ref) : string :=
  name img ++ tag_separator ++
  (if negb (Str.truthy (tag img)) then "latest" else tag img).

Definition unpinned (img : image_ref) : bool :=
  negb (Str.truthy (digest_type img)) && negb (Str.truthy (digest img)).

Definition not_found_message (ref : string) : string :=
  "Error pinning digest to '" ++ ref ++ "'. Image not found.".

Section Summaries.

Context {ext : External}.

Definition pinned_entry (ref : string) : string :=
  let img := parse_image_string ref in
  if unpinned img then
    match get_image (lookup_key img) with
    | Some image => get_image_digest image
    | None => ref
    end
  else ref.

Definition pin_events (ref : string) : list event :=
  let img := parse_image_string ref in
  if unpinned img then
    match get_image (lookup_key img) with
    | Some image => [GetImage (lookup_key img); GetImageDigest image]
    | None => [GetImage (lookup_key img); LogError (not_found_message ref)]
    end
  else [].

(** What the second loop of [expand_from_images] leaves in [structure]
    when no index is out of range. *)
Fixpoint rewrite_from (pis : list string) (counter : nat) (st : list command)
  : list command :=
  match st with
  | [] => []
  | r :: st' =>
      if is_instruction "FROM" r then
        match nth_error pis counter with
        | Some parent =>
            {| instruction := instruction r;
               value := parent;
               content := instruction r ++ " " ++ parent ++ Str.nl |}
            :: rewrite_from pis (counter + 1) st'
        | None => r :: st'
        end
      else r :: rewrite_from pis counter st'
  end.

(** What the loop of [expand_add_command] leaves in a record when
    [find_git_info] returns. *)
Definition annotated (dockerfile_path : string) (r : command) : command :=
  if is_instruction "ADD" r then
    let comment_line := check_git_src dockerfile_path in
    {| instruction := instruction r;
       value := value r ++ " # " ++ comment_line;
       content := Str.strip (content r) Str.newline
                  ++ " # " ++ comment_line ++ Str.nl |}
  else r.

End Summaries.

(** A run of [expand_from_images] on [dfobj] returns and leaves the parent
    images on the FROM instructions, rank by rank: as many entries as FROM
    instructions, the i-th FROM instruction with the i-th entry as [value]
    and ["FROM " + entry + "\n"] as [content], every instruction at its
    place and the other instructions as they were. *)
Definition pinned_in_order {ext : External} (dfobj : Dockerfile) : Prop :=
  exists s',
    run expand_from_images dfobj = (Ok tt, s') /\
    List.length (parent_images (df s')) = count_from (structure (df s')) /\
    map value (filter (is_instruction "FROM") (structure (df s')))
    = parent_images (df s') /\
    map content (filter (is_instruction "FROM") (structure (df s')))
    = map (fun parent => "FROM " ++ parent ++ Str.nl) (parent_images (df s')) /\
    map instruction (structure (df s')) = map instruction (structure dfobj) /\
    (forall j r,
        nth_error (structure dfobj) j = Some r ->
        is_instruction "FROM" r = false ->
        nth_error (structure (df s')) j = Some r).

(** ** Scenarios *)

Definition line (s : string) : string := s ++ Str.nl.

Definition dockerfile_of (st : list command) (e p : option dict) (pis : list string)
  : Dockerfile :=
  {| structure := st; envs := e; prev_env := p;
     filepath := "Dockerfile"; parent_images := pis |}.

(** [FROM python:${VER}] followed by [ARG VER=3.9]. *)
Definition scenario_arg_after_from : list command :=
  [ Command "FROM" "python:${VER}" (line "FROM python:${VER}");
    Command "ARG" "VER=3.9" (line "ARG VER=3.9") ].

(** A RUN line as the parser keeps it when the source has two spaces after
    the keyword. *)
Definition run_two_spaces : command :=
  Command "RUN" "echo $X" (line "RUN  echo $X").

(** [ENV HOME=/root] and a later variable whose value names it. *)
Definition nested_envs : dict := [("HOME", "/root"); ("DIR", "$HOME/app")].

Definition scenario_nested : Dockerfile :=
  dockerfile_of [Command "RUN" "cd $DIR" (line "RUN cd $DIR")]
    (Some nested_envs) None [].



(** Two variables, the first a prefix of the second. *)
Definition prefix_envs : dict := [("APP", "/app"); ("APP_HOME", "/app/home")].

Definition scenario_prefix : Dockerfile :=
  dockerfile_of [Command "RUN" "cd $APP_HOME" (line "RUN cd $APP_HOME")]
    (Some prefix_envs) (Some [("APP_HOME", "/old")]) [].

(** A registry that knows no image, an image parser for the reference
    [private/img:latest] and a repository answer. *)
Definition no_registry : External :=
  {| Image := string;
     parse_image_string := fun _ => ImageRef "private/img" "latest" "" "";
     get_image := fun _ => None;
     get_image_digest := fun image => image;
     check_git_src := fun _ => "repo@abc123" |}.

Definition scenario_alias : Dockerfile :=
  dockerfile_of
    [Command "FROM" "private/img:latest AS build"
       (line "FROM private/img:latest AS build")]
    None None ["private/img:latest"].

Definition scenario_private : Dockerfile :=
  dockerfile_of
    [Command "FROM" "private/img:latest" (line "FROM private/img:latest");
     Command "RUN" "make" (line "RUN make")]
    None None ["private/img:latest"].

(** A registry that knows [ubuntu:20.04] and an image parser that splits at
    the first [@] or [:]. *)
Fixpoint split_ref (s : string) : string * option (ascii * string) :=
  match s with
  | EmptyString => (EmptyString, None)
  | String c s' =>
      if Ascii.eqb c "@" || Ascii.eqb c ":" then (EmptyString, Some (c, s'))
      else let (n, rest) := split_ref s' in (String c n, rest)
  end.

Definition parse_ref (s : string) : image_ref :=
  match split_ref s with
  | (n, None) => ImageRef n "" "" ""
  | (n, Some (c, rest)) =>
      if Ascii.eqb c ":" then ImageRef n rest "" ""
      else match split_ref rest with
           | (ty, Some (_, dg)) => ImageRef n "" ty dg
           | (ty, None) => ImageRef n "" ty ""
           end
  end.

Definition ubuntu_registry : External :=
  {| Image := string;
     parse_image_string := parse_ref;
     get_image := fun key =>
       if String.eqb key "ubuntu:20.04" then Some "ubuntu@sha256:abcd" else None;
     get_image_digest := fun image => image;
     check_git_src := fun _ => "repo@abc123" |}.

Definition scenario_two_stage : Dockerfile :=
  dockerfile_of
    [Command "FROM" "ubuntu:20.04" (line "FROM ubuntu:20.04");
     Command "RUN" "make" (line "RUN make");
     Command "FROM" "alpine@sha256:ef01" (line "FROM alpine@sha256:ef01");
     Command "ADD" "./src /dst" (line "ADD ./src /dst")]
    None None ["ubuntu:20.04"; "alpine@sha256:ef01"].

(** An ADD line with the [--chown] option and nothing after it. *)
Definition scenario_chown_only : Dockerfile :=
  dockerfile_of
    [Command "ADD" "--chown=user:group" (line "ADD --chown=user:group")]
    None None [].

(** An ADD line without a destination. *)
Definition scenario_add_src_only : Dockerfile :=
  dockerfile_of [Command "ADD" "./src" (line "ADD ./src")] None None [].

(** The ENV pass inserts a reference that the ARG pass resolves. *)
Definition scenario_env_then_arg : Dockerfile :=
  dockerfile_of
    [Command "ARG" "VER=3.9" (line "ARG VER=3.9");
     Command "FROM" "$IMG" (line "FROM $IMG")]
    (Some [("IMG", "python:${VER}")]) None ["$IMG"].

(** The ARG pass builds a reference to a variable of [envs]. *)
Definition scenario_arg_builds_env : Dockerfile :=
  dockerfile_of
    [Command "ARG" "A=$" (line "ARG A=$");
     Command "ARG" "B=E" (line "ARG B=E");
     Command "RUN" "echo $A$B" (line "RUN echo $A$B")]
    (Some [("E", "x")]) None [].

(** One name defined by ENV and by ARG. *)
Definition scenario_same_name : Dockerfile :=
  dockerfile_of
    [Command "ARG" "X=arg" (line "ARG X=arg");
     Command "RUN" "echo $X" (line "RUN echo $X")]
    (Some [("X", "env")]) None [].

(** [ENV APP=myapp] and a COPY line that uses it. *)
Definition app_envs : dict := [("APP", "myapp")].

Definition scenario_copy_app : Dockerfile :=
  dockerfile_of [Command "COPY" "$APP /app" (line "COPY $APP /app")]
    (Some app_envs) None [].

(** One name in [envs] and in [prev_env], and a line that uses it. *)
Definition scenario_both_envs : Dockerfile :=
  dockerfile_of
    [Command "RUN" "echo ${MODE} done" (line "RUN echo ${MODE} done")]
    (Some [("USER", "app"); ("MODE", "release")])
    (Some [("MODE", "debug")]) [].

(** [ARG HOME=/root], [ARG DIR=$HOME/app] and a line that uses the
    second. *)
Definition scenario_nested_args : Dockerfile :=
  dockerfile_of
    [Command "ARG" "HOME=/root" (line "ARG HOME=/root");
     Command "ARG" "DIR=$HOME/app" (line "ARG DIR=$HOME/app");
     Command "RUN" "cd $DIR" (line "RUN cd $DIR")]
    None None [].

(** ** The other functions of the module *)

(** [Dockerfile.is_none]: nothing was parsed. *)
Definition is_none (dfobj : Dockerfile) : bool :=
  if (match structure dfobj with [] => false | _ :: _ => true end)
     || dict_truthy (envs dfobj)
     || dict_truthy (prev_env dfobj)
     || Str.truthy (filepath dfobj)
  then false else true.

(** [c.isspace()] for a code point below 256: the controls 9 to 13 and 28
    to 31, the space, NEL and the no-break space. *)
Definition isspace (c : ascii) : bool :=
  let n := nat_of_ascii c in
  (Nat.leb 9 n && Nat.leb n 13) || (Nat.leb 28 n && Nat.leb n 32)
  || Nat.eqb n 133 || Nat.eqb n 160.

(** [s.rstrip()] *)
Fixpoint rstrip_space (s : string) : string :=
  match s with
  | EmptyString => EmptyString
  | String a s' =>
      match rstrip_space s' with
      | EmptyString => if isspace a then EmptyString else String a EmptyString
      | t => String a t
      end
  end.

(** The last character of [s] is white space. *)
Fixpoint ends_with_space (s : string) : bool :=
  match s with
  | EmptyString => false
  | String a EmptyString => isspace a
  | String _ s' => ends_with_space s'
  end.

Definition get_command_list_step (cmd_list : list string) (cmd_dict : command)
  : list string :=
  if negb (is_instruction "COMMENT" cmd_dict)
  then (cmd_list ++ [rstrip_space (content cmd_dict)])%list
  else cmd_list.

Definition get_command_list (dfobj_structure : list command) : list string :=
  fold_left get_command_list_step dfobj_structure [].

(** [s.count(c)] for a single character *)
Fixpoint count_char (c : ascii) (s : string) : nat :=
  match s with
  | EmptyString => 0
  | String a s' => (if Ascii.eqb a c then 1 else 0) + count_char c s'
  end.

(** The lines on which [find_git_info] finds every token it reads: a
    second token, and a third one when the second starts with [--chown]. *)
Definition tokens_suffice (line' : string) : bool :=
  match Str.split line' Str.space with
  | _ :: arg1 :: rest =>
      if Str.startswith arg1 "--chown"
      then match rest with [] => false | _ :: _ => true end
      else true
  | _ => false
  end.

(** The record is not an ADD instruction, or its line has the tokens. *)
Definition add_line_suffices (r : command) : bool :=
  negb (is_instruction "ADD" r) || tokens_suffice (content r).

Section Queries.

Context {ext : External}.

(** The event is a call of [check_git_src]. *)
Definition is_git_query (ev : event) : bool :=
  match ev with
  | CheckGitSrc _ => true
  | _ => false
  end.

End Queries.

(** ** Further scenarios *)

(** A two-stage build with stage names. *)
Definition scenario_stage_names : Dockerfile :=
  dockerfile_of
    [Command "FROM" "golang:1.12 AS builder" (line "FROM golang:1.12 AS builder");
     Command "RUN" "go build" (line "RUN go build");
     Command "FROM" "alpine" (line "FROM alpine");
     Command "COPY" "--from=builder /app /app" (line "COPY --from=builder /app /app")]
    None None [].

(** A file with a comment, a package installation and an ADD line. *)
Definition scenario_install : Dockerfile :=
  dockerfile_of
    [Command "COMMENT" "base image" (line "# base image");
     Command "FROM" "ubuntu:20.04" (line "FROM ubuntu:20.04");
     Command "ARG" "VERSION" (line "ARG VERSION");
     Command "RUN" "apt-get install curl" (line "RUN apt-get install curl");
     Command "ADD" "./src /dst" (line "ADD ./src /dst")]
    (Some [("MODE", "release")]) None ["ubuntu:20.04"].

(** A good ADD line followed by one that has the option and nothing else. *)
Definition scenario_second_add_short : Dockerfile :=
  dockerfile_of
    [Command "ADD" "./src /dst" (line "ADD ./src /dst");
     Command "ADD" "--chown=user:group" (line "ADD --chown=user:group")]
    None None [].

(** Two FROM instructions and one parent image. *)
Definition scenario_missing_parent : Dockerfile :=
  dockerfile_of
    [Command "FROM" "ubuntu:20.04" (line "FROM ubuntu:20.04");
     Command "FROM" "alpine" (line "FROM alpine")]
    None None ["ubuntu:20.04"].

(** ** Text read as literal pieces and references *)

(** What [replace_env] does to one field: for each key in the order of the
    dict, the replacement of [$KEY] and then of [${KEY}], each on the text
    that the replacements before it produced. *)
Definition substitute (d : dict) (s : string) : string :=
  fold_left
    (fun text (kv : string * string) =>
       Str.replace (Str.replace text ("$" ++ fst kv) (snd kv))
         ("${" ++ fst kv ++ "}") (snd kv))
    d s.

(** The pieces of [s] between the occurrences of a non-empty [old] that
    [s.replace(old, new)] replaces ([s.split(old)]): the scan of
    [Str.replace_from], keeping the text and cutting at each match. *)
Fixpoint pieces_from (old : string) (skip : nat) (s : string) : list string :=
  match s with
  | EmptyString => [EmptyString]
  | String c s' =>
      match skip with
      | S k => pieces_from old k s'
      | O =>
          if Str.startswith s old
          then EmptyString :: pieces_from old (String.length old - 1) s'
          else match pieces_from old 0 s' with
               | [] => [String c EmptyString]
               | w :: ws => String c w :: ws
               end
      end
  end.


(** A piece of text without reference, or a reference [$key]
    ([braces = false]) or [${key}] ([braces = true]). *)
Inductive segment : Type :=
| Lit (text : string)
| Ref (braces : bool) (key : string).



(** A name that is not empty and holds none of "$", "{" and "}". *)
Definition plain_name (k : string) : bool :=
  Str.truthy k
  && negb (Str.has_char "$" k)
  && negb (Str.has_char "{" k)
  && negb (Str.has_char "}" k).


(** The character occurs in no key. *)
Definition delimiter (ks : list string) (c : ascii) : bool :=
  forallb (fun k => negb (Str.has_char c k)) ks.

(** No other key is the beginning of [k]. *)
Definition no_shorter_key (ks : list string) (k : string) : bool :=
  forallb (fun k0 => String.eqb k0 k || negb (Str.startswith k k0)) ks.

(** Text in which the references are set apart: the literal pieces hold no
    "$", the names are plain, no other key begins a name written as
    [$NAME], and such a reference is followed by the end of the text or by
    a literal piece whose first character occurs in no key. *)
Fixpoint simple_text (ks : list string) (segs : list segment) : bool :=
  match segs with
  | [] => true
  | Lit text :: rest => negb (Str.has_char Str.dollar text) && simple_text ks rest
  | Ref true k :: rest => plain_name k && simple_text ks rest
  | Ref false k :: rest =>
      plain_name k
      && no_shorter_key ks k
      && match rest with
         | [] => true
         | Lit (String c _) :: _ => delimiter ks c
         | _ => false
         end
      && simple_text ks rest
  end.





(** A value that joins the text after it into the name of a later key. *)
Definition joining_dict : dict := [("A", "x"); ("xB", "y")].


(** * Properties *)

#[local] Arguments Ascii.eqb : simpl never.
#[local] Arguments Nat.ltb : simpl never.

(** ** The built-ins on small inputs *)

Example replace_all_occurrences : Str.replace "a$X b$X" "$X" "12" = "a12 b12".
Proof. reflexivity. Qed.

Example replace_does_not_overlap : Str.replace "aaa" "aa" "b" = "ba".
Proof. reflexivity. Qed.

Example replace_empty_pattern : Str.replace "ab" "" "-" = "-a-b-".
Proof. reflexivity. Qed.

Example replace_first_only :
  Str.replace_first "curl curl" "curl" "curl=7" = "curl=7 curl".
Proof. reflexivity. Qed.

Example split_on_equals : Str.split "A= 1" Str.equals = ["A"; " 1"].
Proof. reflexivity. Qed.

Example split_keeps_empty_pieces :
  Str.split "a  b " Str.space = ["a"; ""; "b"; ""].
Proof. reflexivity. Qed.

Example strip_both_ends : Str.strip "  a b  " Str.space = "a b".
Proof. reflexivity. Qed.

Example split_as_head_alias : re_split_as_head "golang:1.12 AS builder" = "golang:1.12".
Proof. reflexivity. Qed.

Example split_as_head_plain : re_split_as_head "alpine" = "alpine".
Proof. reflexivity. Qed.

Example copy_line_after_env_pass :
  map value (structure (expand_vars scenario_copy_app)) = ["myapp /app"].
Proof. reflexivity. Qed.

(** ** Facts about the string built-ins *)

Section StrFacts.

Import Str.

Lemma append_assoc (a b c : string) : (a ++ b) ++ c = a ++ (b ++ c).
Proof. induction a as [|x a IH]; simpl; [reflexivity | now rewrite IH]. Qed.

Lemma append_empty_r (a : string) : a ++ "" = a.
Proof. induction a as [|x a IH]; simpl; [reflexivity | now rewrite IH]. Qed.

Lemma length_append (a b : string) :
  String.length (a ++ b) = String.length a + String.length b.
Proof. induction a as [|x a IH]; simpl; [reflexivity | now rewrite IH]. Qed.

Lemma startswith_self (p s : string) : startswith (p ++ s) p = true.
Proof.
  induction p as [|x p IH]; simpl; [reflexivity|].
  now rewrite Ascii.eqb_refl.
Qed.

Lemma startswith_length (p s : string) :
  startswith s p = true -> String.length p <= String.length s.
Proof.
  revert s; induction p as [|x p IH]; intros s H; simpl; [lia|].
  destruct s as [|y s]; simpl in H; [discriminate|].
  apply andb_true_iff in H as [_ H]. apply IH in H. simpl; lia.
Qed.

Lemma drop_append (p s : string) : drop (String.length p) (p ++ s) = s.
Proof. induction p as [|x p IH]; simpl; [now destruct s | exact IH]. Qed.


Lemma has_char_append (c : ascii) (a b : string) :
  has_char c (a ++ b) = has_char c a || has_char c b.
Proof.
  induction a as [|x a IH]; simpl; [reflexivity|].
  now rewrite IH, orb_assoc.
Qed.

(** The scan after passing over [k] characters is the scan of the rest. *)
Lemma replace_from_skip (old new : string) (k : nat) (s : string) :
  replace_from old new k s = replace_from old new 0 (drop k s).
Proof.
  revert k; induction s as [|c s IH]; intros [|k]; simpl; try reflexivity.
  rewrite IH. now destruct s.
Qed.

(** The two equations of [str.replace] for a non-empty [old]. *)
Lemma replace_from_match (old new s : string) :
  old <> "" ->
  replace_from old new 0 (old ++ s) = new ++ replace_from old new 0 s.
Proof.
  intros Hold. destruct old as [|c old]; [congruence|].
  change (String c old ++ s) with (String c (old ++ s)).
  cbn [replace_from].
  change (String c (old ++ s)) with (String c old ++ s).
  rewrite startswith_self.
  rewrite replace_from_skip. cbn [String.length].
  replace (S (String.length old) - 1) with (String.length old) by lia.
  now rewrite drop_append.
Qed.

Lemma replace_from_miss (old new : string) (c : ascii) (s : string) :
  startswith (String c s) old = false ->
  replace_from old new 0 (String c s) = String c (replace_from old new 0 s).
Proof. intros H. cbn [replace_from]. now rewrite H. Qed.

(** Text that does not hold [old] is left as it is. *)
Lemma replace_from_absent (old new s : string) :
  contains s old = false -> replace_from old new 0 s = s.
Proof.
  induction s as [|c s IH]; intros H; [reflexivity|].
  cbn [contains] in H. apply orb_false_iff in H as [H1 H2].
  rewrite replace_from_miss by exact H1. now rewrite IH.
Qed.

Lemma replace_absent (s old new : string) :
  contains s old = false -> replace s old new = s.
Proof.
  intros H. destruct old as [|c old].
  - destruct s; discriminate H.
  - now apply replace_from_absent.
Qed.

(** A pattern that starts with "$" is not found in text without "$". *)
Lemma startswith_dollar (s p : string) :
  has_char dollar s = false -> startswith s (String dollar p) = false.
Proof.
  unfold dollar. destruct s as [|c s]; simpl; [reflexivity|].
  intros H. apply orb_false_iff in H as [H _].
  rewrite Ascii.eqb_sym in H. now rewrite H.
Qed.

Lemma contains_dollar (s p : string) :
  has_char dollar s = false -> contains s (String dollar p) = false.
Proof.
  induction s as [|c s IH]; intros H; [reflexivity|].
  cbn [contains]. rewrite (startswith_dollar _ p H).
  simpl in H. apply orb_false_iff in H as [_ H]. now rewrite IH.
Qed.

Lemma replace_dollar_free (s p new : string) :
  has_char dollar s = false -> replace s (String dollar p) new = s.
Proof. intros H. apply replace_absent. now apply contains_dollar. Qed.

(** The scan passes over a prefix without "$" untouched. *)
Lemma replace_from_dollar_prefix (a s p new : string) :
  has_char dollar a = false ->
  replace_from (String dollar p) new 0 (a ++ s)
  = a ++ replace_from (String dollar p) new 0 s.
Proof.
  induction a as [|c a IH]; intros H; [reflexivity|].
  change (String c a ++ s) with (String c (a ++ s)).
  rewrite replace_from_miss.
  - simpl in H. apply orb_false_iff in H as [_ H]. now rewrite IH.
  - unfold dollar in *. simpl in H. apply orb_false_iff in H as [H _].
    simpl. rewrite Ascii.eqb_sym in H. now rewrite H.
Qed.

(** One call of [str.replace] on text whose only "$" starts the pattern:
    the new text is put in place and is not looked at again. *)
Lemma replace_one_occurrence (a b p new : string) :
  has_char dollar a = false ->
  has_char dollar b = false ->
  replace (a ++ String dollar p ++ b) (String dollar p) new = a ++ new ++ b.
Proof.
  intros Ha Hb. unfold replace.
  rewrite replace_from_dollar_prefix by exact Ha.
  rewrite replace_from_match by discriminate.
  rewrite replace_from_absent; [reflexivity|].
  now apply contains_dollar.
Qed.

(** A pattern without a line feed matches before a final line feed as it
    does without it. *)
Lemma startswith_before_newline (p s : string) :
  has_char newline p = false ->
  startswith (s ++ nl) p = startswith s p.
Proof.
  unfold nl, newline.
  revert s; induction p as [|x p IH]; intros s H; [reflexivity|].
  simpl in H. apply orb_false_iff in H as [Hx Hp].
  destruct s as [|y s]; simpl.
  - now rewrite Hx.
  - now rewrite IH.
Qed.

Lemma replace_from_before_newline (old new : string) (k : nat) (s : string) :
  old <> "" ->
  has_char newline old = false ->
  k <= String.length s ->
  replace_from old new k (s ++ nl) = replace_from old new k s ++ nl.
Proof.
  intros Hne Hnl. revert k; induction s as [|c s IH]; intros k Hk.
  - simpl in Hk. assert (k = 0) by lia. subst k.
    destruct old as [|x old]; [congruence|].
    unfold nl, newline in *.
    simpl in Hnl. apply orb_false_iff in Hnl as [Hx _].
    simpl. now rewrite Hx.
  - destruct k as [|k].
    + change (String c s ++ nl) with (String c (s ++ nl)).
      cbn [replace_from].
      change (String c (s ++ nl)) with (String c s ++ nl).
      rewrite startswith_before_newline by exact Hnl.
      destruct (startswith (String c s) old) eqn:Hm.
      * apply startswith_length in Hm. simpl in Hm.
        rewrite IH by lia. now rewrite append_assoc.
      * simpl. now rewrite IH by lia.
    + simpl. simpl in Hk. apply IH. lia.
Qed.

(** [strip] of a line feed from text that starts with another character
    and ends with one line feed. *)
Lemma rstrip_newline (s : string) :
  endswith_char s newline = false ->
  rstrip (s ++ nl) newline = s.
Proof.
  induction s as [|c s IH]; intros H; [reflexivity|].
  destruct s as [|d s].
  - simpl in H. simpl. now rewrite H.
  - change (endswith_char (String c (String d s)) newline)
      with (endswith_char (String d s) newline) in H.
    specialize (IH H).
    change (String c (String d s) ++ nl) with (String c (String d s ++ nl)).
    cbn [rstrip]. rewrite IH. reflexivity.
Qed.

Lemma endswith_char_append (a b : string) (c : ascii) :
  b <> "" -> endswith_char (a ++ b) c = endswith_char b c.
Proof.
  intros Hb. induction a as [|x a IH]; [reflexivity|].
  simpl. destruct (a ++ b) eqn:E.
  - destruct a; simpl in E; [congruence | discriminate].
  - exact IH.
Qed.

End StrFacts.

(** ** The substitution pass *)

Section ReplaceEnv.

Import Str.

Lemma instruction_replace_env (d : dict) (r : command) :
  instruction (replace_env d r) = instruction r.
Proof.
  unfold replace_env. revert r; induction d as [|[k v] d IH]; intros r;
    [reflexivity|].
  simpl. now rewrite IH.
Qed.

Lemma command_eq (r r' : command) :
  instruction r = instruction r' -> value r = value r' ->
  content r = content r' -> r = r'.
Proof. destruct r, r'; simpl; intros; subst; reflexivity. Qed.

Lemma replace_env_cons (k v : string) (d : dict) (r : command) :
  replace_env ((k, v) :: d) r = replace_env d (replace_env_item r (k, v)).
Proof. reflexivity. Qed.

Lemma replace_env_all_nil (st : list command) : replace_env_all [] st = st.
Proof. unfold replace_env_all. now rewrite map_id. Qed.

(** [value] and [content] go through the same two replacements; the facts
    below hold for either field. *)
Section Field.

Variable f : command -> string.
Hypothesis f_item : forall r k v,
  f (replace_env_item r (k, v))
  = replace (replace (f r) ("$" ++ k) v) ("${" ++ k ++ "}") v.

Lemma field_dollar_free (d : dict) (r : command) :
  has_char dollar (f r) = false -> f (replace_env d r) = f r.
Proof.
  revert r; induction d as [|[k v] d IH]; intros r H; [reflexivity|].
  rewrite replace_env_cons.
  assert (E : f (replace_env_item r (k, v)) = f r).
  { rewrite f_item.
    change ("$" ++ k) with (String dollar k).
    change ("${" ++ k ++ "}") with (String dollar ("{" ++ k ++ "}")).
    now rewrite (replace_dollar_free (f r) _ _ H),
      (replace_dollar_free (f r) _ _ H). }
  rewrite IH; rewrite E; auto.
Qed.

Lemma field_not_mentioned (d : dict) (r : command) :
  (forall k v, In (k, v) d -> mentions (f r) k = false) ->
  f (replace_env d r) = f r.
Proof.
  revert r; induction d as [|[k v] d IH]; intros r H; [reflexivity|].
  rewrite replace_env_cons.
  assert (E : f (replace_env_item r (k, v)) = f r).
  { rewrite f_item.
    destruct (orb_false_elim _ _ (H k v (or_introl eq_refl))) as [H1 H2].
    now rewrite (replace_absent _ _ _ H1), (replace_absent _ _ _ H2). }
  rewrite IH; rewrite E; [reflexivity|].
  intros k' v' Hin. apply (H k' v'). now right.
Qed.

(** The turn of [key] on text whose only reference is to [key]. *)
Lemma field_item_sole_reference (d : dict) (key val a b : string) (r : command) :
  sole_reference d key (f r) a b ->
  has_char dollar val = false ->
  f (replace_env_item r (key, val)) = a ++ val ++ b.
Proof.
  intros (Ha & Hb & Hs & _) Hval. rewrite f_item.
  assert (Hfree : has_char dollar (a ++ val ++ b) = false).
  { rewrite !has_char_append, Ha, Hb, Hval. reflexivity. }
  destruct Hs as [Hs | [Hs Hno]].
  - rewrite Hs.
    change (a ++ "$" ++ key ++ b) with (a ++ String dollar key ++ b).
    change ("$" ++ key) with (String dollar key).
    rewrite replace_one_occurrence by assumption.
    apply (replace_dollar_free _ _ _ Hfree).
  - rewrite (replace_absent _ _ _ Hno). rewrite Hs.
    change ("${" ++ key ++ "}") with (String dollar ("{" ++ key ++ "}")).
    replace (a ++ "${" ++ key ++ "}" ++ b)
      with (a ++ String dollar ("{" ++ key ++ "}") ++ b).
    + now apply replace_one_occurrence.
    + simpl. now rewrite append_assoc.
Qed.

(** A pass on text whose only reference is to [key], when the value of
    [key] brings no "$": the value is put in place and stays. *)
Lemma field_sole_reference (d : dict) (key val a b : string) (r : command) :
  dict_get d key = Some val ->
  sole_reference d key (f r) a b ->
  has_char dollar val = false ->
  f (replace_env d r) = a ++ val ++ b.
Proof.
  revert r; induction d as [|[k v] d IH]; intros r Hget Hsole Hval;
    [discriminate|].
  rewrite replace_env_cons. simpl in Hget.
  destruct (String.eqb_spec k key) as [->|Hne].
  - injection Hget as ->.
    pose proof (field_item_sole_reference _ _ _ _ _ _ Hsole Hval) as E.
    rewrite field_dollar_free; rewrite E; [reflexivity|].
    destruct Hsole as (Ha & Hb & _).
    rewrite !has_char_append, Ha, Hb, Hval. reflexivity.
  - destruct Hsole as (Ha & Hb & Hs & Hothers).
    assert (E : f (replace_env_item r (k, v)) = f r).
    { rewrite f_item.
      destruct (orb_false_elim _ _
                  (Hothers k v (or_introl eq_refl) Hne)) as [H1 H2].
      now rewrite (replace_absent _ _ _ H1), (replace_absent _ _ _ H2). }
    apply IH; [exact Hget | | exact Hval]. rewrite E.
    repeat split; try assumption.
    intros k' v' Hin. apply (Hothers k' v'). now right.
Qed.

End Field.

Lemma value_item (r : command) (k v : string) :
  value (replace_env_item r (k, v))
  = replace (replace (value r) ("$" ++ k) v) ("${" ++ k ++ "}") v.
Proof. reflexivity. Qed.

Lemma content_item (r : command) (k v : string) :
  content (replace_env_item r (k, v))
  = replace (replace (content r) ("$" ++ k) v) ("${" ++ k ++ "}") v.
Proof. reflexivity. Qed.

(** A record that holds no variable of the mapping is left as it is. *)
Lemma replace_env_no_reference (d : dict) (r : command) :
  references d r = false -> replace_env d r = r.
Proof.
  intros H. unfold references in H.
  assert (Hall : forall k v, In (k, v) d ->
            mentions (value r) k = false /\ mentions (content r) k = false).
  { intros k v Hin. apply orb_false_iff.
    destruct (mentions (value r) k || mentions (content r) k) eqn:E;
      [|reflexivity].
    assert (existsb (fun kv => mentions (value r) (fst kv)
                               || mentions (content r) (fst kv)) d = true)
      by (apply existsb_exists; exists (k, v); split; assumption).
    congruence. }
  apply command_eq.
  - apply instruction_replace_env.
  - apply (field_not_mentioned value value_item). intros k v Hin.
    apply (Hall k v Hin).
  - apply (field_not_mentioned content content_item). intros k v Hin.
    apply (Hall k v Hin).
Qed.

(** One replacement on a consistent line acts on the value alone. *)
Lemma replace_consistent_line (i v p new : string) :
  has_char dollar i = false ->
  has_char newline p = false ->
  replace (i ++ " " ++ v ++ nl) (String dollar p) new
  = i ++ " " ++ replace v (String dollar p) new ++ nl.
Proof.
  intros Hi Hp. unfold replace.
  rewrite <- (append_assoc i " " (v ++ nl)).
  rewrite replace_from_dollar_prefix.
  - rewrite replace_from_before_newline; [| discriminate | | lia].
    + now rewrite append_assoc.
    + unfold dollar, newline in *. simpl. now rewrite Hp.
  - rewrite has_char_append, Hi. reflexivity.
Qed.

Lemma replace_env_item_consistent (r : command) (k v : string) :
  content_consistent r ->
  has_char dollar (instruction r) = false ->
  has_char newline k = false ->
  content_consistent (replace_env_item r (k, v)).
Proof.
  unfold content_consistent. intros Hc Hi Hk.
  rewrite content_item, value_item. cbn [instruction replace_env_item].
  rewrite Hc.
  change ("$" ++ k) with (String dollar k).
  change ("${" ++ k ++ "}") with (String dollar ("{" ++ k ++ "}")).
  rewrite replace_consistent_line by assumption.
  rewrite replace_consistent_line; [reflexivity | assumption |].
  unfold newline in *. simpl. rewrite has_char_append, Hk. reflexivity.
Qed.

Lemma replace_env_consistent (d : dict) (r : command) :
  content_consistent r ->
  has_char dollar (instruction r) = false ->
  (forall k v, In (k, v) d -> has_char newline k = false) ->
  content_consistent (replace_env d r).
Proof.
  revert r; induction d as [|[k v] d IH]; intros r Hc Hi Hd; [exact Hc|].
  rewrite replace_env_cons. apply IH.
  - apply replace_env_item_consistent; try assumption.
    apply (Hd k v). now left.
  - exact Hi.
  - intros k' v' Hin. apply (Hd k' v'). now right.
Qed.

End ReplaceEnv.

(** ** The ENV and ARG passes *)

Section Passes.

Import Str.

Lemma nth_error_replace_env_all (d : dict) (st : list command) (i : nat) (r : command) :
  nth_error st i = Some r ->
  nth_error (replace_env_all d st) i = Some (replace_env d r).
Proof. intros H. unfold replace_env_all. now apply map_nth_error. Qed.

Lemma dict_get_some_truthy (d : dict) (k v : string) :
  dict_get d k = Some v -> dict_truthy (Some d) = true.
Proof. destruct d; [discriminate | reflexivity]. Qed.

Lemma replace_env_all_no_reference (d : dict) (st : list command) :
  forallb (fun r => negb (references d r)) st = true ->
  replace_env_all d st = st.
Proof.
  induction st as [|r st IH]; intros H; [reflexivity|].
  simpl in H. apply andb_true_iff in H as [Hr Hst].
  apply negb_true_iff in Hr. simpl.
  rewrite (replace_env_no_reference d r Hr). f_equal. now apply IH.
Qed.

Lemma forallb_and {A : Type} (p q : A -> bool) (l : list A) :
  forallb (fun x => p x && q x) l = true ->
  forallb p l = true /\ forallb q l = true.
Proof.
  induction l as [|x l IH]; intros H; [now split|].
  simpl in H. apply andb_true_iff in H as [Hx Hl].
  apply andb_true_iff in Hx as [Hp Hq]. destruct (IH Hl) as [IHp IHq].
  simpl. now rewrite Hp, Hq, IHp, IHq.
Qed.

Lemma expand_vars_structure (dfobj : Dockerfile) :
  structure (expand_vars dfobj)
  = replace_env_all (items (prev_env dfobj))
      (replace_env_all (items (envs dfobj)) (structure dfobj)).
Proof.
  unfold expand_vars. cbn [structure set_structure].
  assert (E : forall o st,
             (if dict_truthy o then replace_env_all (items o) st else st)
             = replace_env_all (items o) st).
  { intros [[|kv d]|] st; simpl; try reflexivity;
      now rewrite replace_env_all_nil. }
  now rewrite !E.
Qed.

Lemma expand_arg_structure (dfobj : Dockerfile) :
  structure (expand_arg dfobj)
  = replace_env_all (get_arg_dict (structure dfobj)) (structure dfobj).
Proof.
  unfold expand_arg, update_parent_images.
  cbn [structure set_structure set_parent_images].
  destruct (get_arg_dict (structure dfobj)); [|reflexivity].
  now rewrite replace_env_all_nil.
Qed.

End Passes.

(** C2.  For the Dockerfile [FROM python:${VER}] followed by
    [ARG VER=3.9], the ARG pass collects the dictionary [{VER: 3.9}] from
    the whole file before it substitutes, and the parent images it then
    derives from the FROM lines are [["python:3.9"]], although the ARG line
    comes after the FROM line; whatever [envs], [prev_env], [filepath] and
    the earlier [parent_images] are. *)
Theorem arg_after_from_is_resolved
  (e p : option dict) (path : string) (pis : list string) :
  let dfobj := {| structure := scenario_arg_after_from; envs := e;
                  prev_env := p; filepath := path; parent_images := pis |} in
  get_arg_dict (structure dfobj) = [("VER", "3.9")] /\
  parent_images (expand_arg dfobj) = ["python:3.9"] /\
  map content (structure (expand_arg dfobj))
  = [line "FROM python:3.9"; line "ARG VER=3.9"].
Proof. cbv zeta. repeat split. Qed.

(** C3, as the code has it.  A second run of a substitution pass with the
    same mapping changes nothing when the first run left no [$KEY] or
    [${KEY}] of the mapping in any [value] or [content]: this holds for the
    loop over the structure with any fixed mapping, and for [expand_vars]
    with [envs] and [prev_env]. *)
Theorem second_pass_without_references_changes_nothing
  (d : dict) (st : list command) (dfobj : Dockerfile) :
  (forallb (fun r => negb (references d r)) (replace_env_all d st) = true ->
   replace_env_all d (replace_env_all d st) = replace_env_all d st) /\
  (forallb (fun r => negb (references (items (envs dfobj)) r)
                     && negb (references (items (prev_env dfobj)) r))
     (structure (expand_vars dfobj)) = true ->
   expand_vars (expand_vars dfobj) = expand_vars dfobj).
Proof.
  split.
  - apply replace_env_all_no_reference.
  - intros H. apply forallb_and in H as [He Hp].
    assert (Hs : structure (expand_vars (expand_vars dfobj))
                 = structure (expand_vars dfobj)).
    { rewrite (expand_vars_structure (expand_vars dfobj)).
      change (envs (expand_vars dfobj)) with (envs dfobj).
      change (prev_env (expand_vars dfobj)) with (prev_env dfobj).
      rewrite (replace_env_all_no_reference _ _ He).
      apply (replace_env_all_no_reference _ _ Hp). }
    unfold expand_vars at 1. fold (expand_vars (expand_vars dfobj)) in Hs.
    unfold expand_vars at 1 in Hs. cbn [structure set_structure] in Hs.
    unfold set_structure at 1. rewrite Hs.
    reflexivity.
Qed.

Lemma second_pass_without_references_witness :
  replace_env_all app_envs
    (replace_env_all app_envs (structure scenario_copy_app))
  = replace_env_all app_envs (structure scenario_copy_app) /\
  expand_vars (expand_vars scenario_copy_app) = expand_vars scenario_copy_app.
Proof.
  destruct (second_pass_without_references_changes_nothing
              app_envs (structure scenario_copy_app) scenario_copy_app)
    as [Hloop Hvars].
  split; [apply Hloop | apply Hvars]; reflexivity.
Defined.

(** C3, as stated, fails: with [envs = {HOME: /root, DIR: $HOME/app}] the
    first run of [expand_vars] turns [cd $DIR] into [cd $HOME/app] (the turn
    of HOME is over when DIR is substituted) and the second run turns that
    into [cd /root/app].  The ARG pass does the same on the file
    [ARG HOME=/root], [ARG DIR=$HOME/app], [RUN cd $DIR]. *)
Lemma expand_vars_second_run_differs :
  map value (structure (expand_vars scenario_nested)) = ["cd $HOME/app"] /\
  map value (structure (expand_vars (expand_vars scenario_nested)))
  = ["cd /root/app"] /\
  expand_vars (expand_vars scenario_nested) <> expand_vars scenario_nested /\
  replace_env_all nested_envs
    (replace_env_all nested_envs (structure scenario_nested))
  <> replace_env_all nested_envs (structure scenario_nested) /\
  get_arg_dict (structure scenario_nested_args) = nested_envs /\
  map value (structure (expand_arg scenario_nested_args))
  = ["HOME=/root"; "DIR=/root/app"; "cd $HOME/app"] /\
  map value (structure (expand_arg (expand_arg scenario_nested_args)))
  = ["HOME=/root"; "DIR=/root/app"; "cd /root/app"].
Proof.
  repeat split; vm_compute; discriminate.
Qed.

(** On text whose only "$" starts a reference to [key], one [str.replace]
    call puts the value in place whatever it holds; the turn of a key comes
    before the turns of the keys after it; and when no other key is spelled
    at that "$" and the value brings no "$", the value is what the pass
    leaves there. *)
Lemma single_reference_is_replaced
  (d : dict) (key val a b : string) (r : command) :
  Str.has_char Str.dollar a = false ->
  Str.has_char Str.dollar b = false ->
  Str.replace (a ++ "$" ++ key ++ b) ("$" ++ key) val = a ++ val ++ b /\
  Str.replace (a ++ "${" ++ key ++ "}" ++ b) ("${" ++ key ++ "}") val
  = a ++ val ++ b /\
  replace_env ((key, val) :: d) r = replace_env d (replace_env_item r (key, val)) /\
  (dict_get d key = Some val ->
   sole_reference d key (value r) a b ->
   Str.has_char Str.dollar val = false ->
   value (replace_env d r) = a ++ val ++ b).
Proof.
  intros Ha Hb. repeat split.
  - apply (replace_one_occurrence a b key val Ha Hb).
  - change ("${" ++ key ++ "}") with (String Str.dollar ("{" ++ key ++ "}")).
    replace (a ++ "${" ++ key ++ "}" ++ b)
      with (a ++ String Str.dollar ("{" ++ key ++ "}") ++ b).
    + now apply replace_one_occurrence.
    + simpl. now rewrite append_assoc.
  - intros Hget Hsole Hval.
    exact (field_sole_reference value value_item d key val a b r Hget Hsole Hval).
Qed.

Lemma single_reference_is_replaced_example :
  Str.replace ("echo " ++ "$" ++ "MODE" ++ " done") ("$" ++ "MODE") "$MODE"
  = "echo " ++ "$MODE" ++ " done" /\
  value (replace_env [("USER", "app"); ("MODE", "release")]
           (Command "RUN" "echo $MODE done" (line "RUN echo $MODE done")))
  = "echo " ++ "release" ++ " done".
Proof.
  destruct (single_reference_is_replaced
              [("USER", "app"); ("MODE", "release")] "MODE" "$MODE"
              "echo " " done"
              (Command "RUN" "echo $MODE done" (line "RUN echo $MODE done"))
              eq_refl eq_refl) as (H1 & _ & _ & _).
  destruct (single_reference_is_replaced
              [("USER", "app"); ("MODE", "release")] "MODE" "release"
              "echo " " done"
              (Command "RUN" "echo $MODE done" (line "RUN echo $MODE done"))
              eq_refl eq_refl) as (_ & _ & _ & H4).
  split; [exact H1 | apply H4].
  - reflexivity.
  - repeat split; try reflexivity.
    + left; reflexivity.
    + intros k v [E | [E | []]] Hne; inversion E; subst;
        [reflexivity | congruence].
  - reflexivity.
Defined.


(** An instruction whose only reference is to a name of [envs] (no other
    "$" in the text, no other key of [envs] spelled there) gets the [envs]
    value from [expand_vars], provided that value brings no "$": nothing is
    left for the [prev_env] pass to replace. *)
Lemma envs_value_for_sole_reference
  (dfobj : Dockerfile) (e p : dict) (name v1 v2 a b : string)
  (i : nat) (r : command) :
  envs dfobj = Some e ->
  prev_env dfobj = Some p ->
  dict_get e name = Some v1 ->
  dict_get p name = Some v2 ->
  nth_error (structure dfobj) i = Some r ->
  sole_reference e name (value r) a b ->
  Str.has_char Str.dollar v1 = false ->
  exists r',
    nth_error (structure (expand_vars dfobj)) i = Some r' /\
    instruction r' = instruction r /\
    value r' = a ++ v1 ++ b /\
    (forall a' b', sole_reference e name (content r) a' b' ->
                   content r' = a' ++ v1 ++ b').
Proof.
  intros He Hp Hv1 Hv2 Hi Hsole Hfree.
  exists (replace_env p (replace_env e r)).
  assert (Hdollar : forall x y,
            Str.has_char Str.dollar x = false ->
            Str.has_char Str.dollar y = false ->
            Str.has_char Str.dollar (x ++ v1 ++ y) = false).
  { intros x y Hx Hy. rewrite !has_char_append, Hx, Hy, Hfree. reflexivity. }
  repeat split.
  - rewrite expand_vars_structure, He, Hp. cbn [items].
    now apply nth_error_replace_env_all, nth_error_replace_env_all.
  - now rewrite !instruction_replace_env.
  - pose proof (field_sole_reference value value_item e name v1 a b r
                  Hv1 Hsole Hfree) as E.
    rewrite (field_dollar_free value value_item); rewrite E; [reflexivity|].
    destruct Hsole as (Ha & Hb & _). now apply Hdollar.
  - intros a' b' Hsole'.
    pose proof (field_sole_reference content content_item e name v1 a' b' r
                  Hv1 Hsole' Hfree) as E.
    rewrite (field_dollar_free content content_item); rewrite E; [reflexivity|].
    destruct Hsole' as (Ha & Hb & _). now apply Hdollar.
Qed.

Lemma envs_value_for_sole_reference_example :
  exists r',
    nth_error (structure (expand_vars scenario_both_envs)) 0 = Some r' /\
    instruction r' = "RUN" /\
    value r' = "echo " ++ "release" ++ " done" /\
    (forall a' b',
        sole_reference [("USER", "app"); ("MODE", "release")] "MODE"
          (line "RUN echo ${MODE} done") a' b' ->
        content r' = a' ++ "release" ++ b').
Proof.
  apply (envs_value_for_sole_reference scenario_both_envs
           [("USER", "app"); ("MODE", "release")] [("MODE", "debug")]
           "MODE" "release" "debug" "echo " " done" 0
           (Command "RUN" "echo ${MODE} done" (line "RUN echo ${MODE} done")));
    try reflexivity.
  repeat split; try reflexivity.
  - right; split; reflexivity.
  - intros k v [E | [E | []]] Hne; inversion E; subst;
      [reflexivity | congruence].
Defined.

(** With [envs = {APP: /app, APP_HOME: /app/home}] and
    [prev_env = {APP_HOME: /old}], the line [cd $APP_HOME] does not get the
    [envs] value of APP_HOME: the turn of APP comes first and replaces the
    [$APP] at the head of [$APP_HOME]. *)
Lemma prefix_key_takes_the_reference :
  dict_get prefix_envs "APP_HOME" = Some "/app/home" /\
  prev_env scenario_prefix = Some [("APP_HOME", "/old")] /\
  map value (structure scenario_prefix) = ["cd " ++ "$" ++ "APP_HOME"] /\
  map value (structure (expand_vars scenario_prefix)) = ["cd /app_HOME"] /\
  map value (structure (expand_vars scenario_prefix)) <> ["cd " ++ "/app/home"].
Proof.
  repeat split; vm_compute; discriminate.
Qed.

(** C5.  With the ENV pass run before the ARG pass: the final text is the
    ARG substitution of what the ENV pass produced, with the ARG dictionary
    read from that text; the ARG pass looks at the structure only, never at
    [envs] or [prev_env], so nothing of the ENV mappings is applied after
    it.  An ARG value replaces a reference that the ENV pass put in
    ([$IMG] becomes [python:${VER}], then [python:3.9]); a reference to an
    ENV variable that the ARG pass builds ([$A$B] becomes [$E]) stays; for a
    name defined by ENV and by ARG the ENV value is the one substituted. *)
Theorem env_pass_then_arg_pass :
  (forall dfobj,
      structure (expand_env_then_arg dfobj)
      = replace_env_all (get_arg_dict (structure (expand_vars dfobj)))
          (structure (expand_vars dfobj))) /\
  (forall st e p path pis e' p' path' pis',
      structure (expand_arg (MkDockerfile st e p path pis))
      = structure (expand_arg (MkDockerfile st e' p' path' pis')) /\
      parent_images (expand_arg (MkDockerfile st e p path pis))
      = parent_images (expand_arg (MkDockerfile st e' p' path' pis'))) /\
  map value (structure (expand_vars scenario_env_then_arg))
  = ["VER=3.9"; "python:${VER}"] /\
  map value (structure (expand_env_then_arg scenario_env_then_arg))
  = ["VER=3.9"; "python:3.9"] /\
  parent_images (expand_env_then_arg scenario_env_then_arg) = ["python:3.9"] /\
  envs scenario_arg_builds_env = Some [("E", "x")] /\
  map value (structure (expand_env_then_arg scenario_arg_builds_env))
  = ["A=$"; "B=E"; "echo $E"] /\
  map value (structure (expand_env_then_arg scenario_same_name))
  = ["X=arg"; "echo env"].
Proof.
  split; [|split].
  - intros dfobj. unfold expand_env_then_arg. apply expand_arg_structure.
  - intros. split; reflexivity.
  - repeat split.
Qed.

(** ** Lists updated by index *)

Section ListFacts.

Context {A : Type}.
Local Open Scope list_scope.

Lemma list_update_same (l : list A) (i : nat) (x : A) :
  nth_error l i = Some x -> list_update l i x = l.
Proof.
  revert i; induction l as [|y l IH]; intros [|i] H; simpl in *;
    try discriminate.
  - now injection H as ->.
  - now rewrite IH.
Qed.

Lemma list_update_middle (pre suf : list A) (x y : A) :
  list_update (pre ++ x :: suf) (List.length pre) y = pre ++ y :: suf.
Proof. induction pre as [|z pre IH]; simpl; [reflexivity | now rewrite IH]. Qed.

Lemma nth_error_middle (pre suf : list A) (x : A) :
  nth_error (pre ++ x :: suf) (List.length pre) = Some x.
Proof. induction pre as [|z pre IH]; simpl; [reflexivity | exact IH]. Qed.

Lemma nth_error_list_update (l : list A) (i : nat) (x : A) :
  i < List.length l -> nth_error (list_update l i x) i = Some x.
Proof.
  revert i; induction l as [|y l IH]; intros [|i] H; simpl in *;
    try lia; [reflexivity|].
  apply IH. lia.
Qed.

Lemma list_update_twice (l : list A) (i : nat) (x y : A) :
  list_update (list_update l i x) i y = list_update l i y.
Proof.
  revert i; induction l as [|z l IH]; intros [|i]; simpl; try reflexivity.
  now rewrite IH.
Qed.

Lemma app_cons_assoc (pre suf : list A) (x : A) :
  pre ++ x :: suf = (pre ++ [x]) ++ suf.
Proof. now rewrite <- app_assoc. Qed.

Lemma length_snoc (pre : list A) (x : A) :
  List.length (pre ++ [x]) = S (List.length pre).
Proof. rewrite length_app. simpl. lia. Qed.

End ListFacts.

(** ** The pinning stage *)

Section Pinning.

Context {ext : External}.
Local Open Scope list_scope.

Lemma set_parent_images_same (d : Dockerfile) :
  set_parent_images d (parent_images d) = d.
Proof. now destruct d. Qed.

Lemma set_structure_same (d : Dockerfile) :
  set_structure d (structure d) = d.
Proof. now destruct d. Qed.

Lemma state_eta (s : state) : {| df := df s; trace := trace s |} = s.
Proof. now destruct s. Qed.

Lemma bind_ok {X Y : Type} (m : M X) (k : X -> M Y) (s s' : state) (x : X) :
  m s = (Ok x, s') -> bind m k s = k x s'.
Proof. intros H. unfold bind. now rewrite H. Qed.

Lemma bind_raise {X Y : Type} (m : M X) (k : X -> M Y) (s s' : state) (e : exn) :
  m s = (Raise e, s') -> bind m k s = (Raise e, s').
Proof. intros H. unfold bind. now rewrite H. Qed.

Lemma index_ok {X : Type} (l : list X) (i : nat) (x : X) (s : state) :
  nth_error l i = Some x -> index l i s = (Ok x, s).
Proof. intros H. unfold index. now rewrite H. Qed.

Lemma assign_field_ok (i : nat) (f : command -> command) (r : command) (s : state) :
  nth_error (structure (df s)) i = Some r ->
  assign_field i f s
  = (Ok tt, {| df := set_structure (df s)
                       (list_update (structure (df s)) i (f r));
               trace := trace s |}).
Proof.
  intros H. unfold assign_field, bind, get_df, put_df.
  now rewrite (index_ok _ _ _ _ H).
Qed.

Lemma unpinned_false (img : image_ref) :
  Str.truthy (digest_type img) = true -> unpinned img = false.
Proof. intros H. unfold unpinned. now rewrite H. Qed.

(** One turn of the first loop, on the entry stored at its index. *)
Lemma pin_parent_image_spec (i : nat) (ref : string) (s : state) :
  nth_error (parent_images (df s)) i = Some ref ->
  pin_parent_image i (parse_image_string ref) s
  = (Ok tt,
     {| df := set_parent_images (df s)
                (list_update (parent_images (df s)) i (pinned_entry ref));
        trace := trace s ++ pin_events ref |}).
Proof.
  intros Hi. unfold pin_parent_image, pinned_entry, pin_events.
  fold (unpinned (parse_image_string ref)).
  fold (lookup_key (parse_image_string ref)).
  destruct (unpinned (parse_image_string ref)).
  - unfold call_get_image, call_get_image_digest, bind, emit, ret. cbn.
    destruct (get_image (lookup_key (parse_image_string ref))) as [image|].
    + unfold assign_parent_image, bind, get_df, put_df. cbn.
      assert (Hlt : Nat.ltb i (List.length (parent_images (df s))) = true).
      { apply Nat.ltb_lt. apply nth_error_Some. congruence. }
      rewrite Hlt. now rewrite <- !app_assoc.
    + unfold get_df. cbn. rewrite (index_ok _ _ _ _ Hi). cbn.
      rewrite (list_update_same _ _ _ Hi), set_parent_images_same.
      now rewrite <- !app_assoc.
  - unfold ret.
    rewrite (list_update_same _ _ _ Hi), set_parent_images_same, app_nil_r.
    now rewrite state_eta.
Qed.

(** The first loop: every entry is replaced by its pinned form, and the
    events of the entries follow each other in order. *)
Lemma pin_loop_spec (suffix pre : list string) (s : state) :
  parent_images (df s) = pre ++ suffix ->
  for_each (enumerate_from (List.length pre) (map parse_image_string suffix))
    (fun '(i, img) => pin_parent_image i img) s
  = (Ok tt,
     {| df := set_parent_images (df s) (pre ++ map pinned_entry suffix);
        trace := trace s ++ flat_map pin_events suffix |}).
Proof.
  revert pre s; induction suffix as [|ref suffix IH]; intros pre s Hs.
  - cbn. rewrite app_nil_r in Hs. rewrite !app_nil_r.
    rewrite <- Hs, set_parent_images_same.
    now rewrite state_eta.
  - cbn [map enumerate_from for_each].
    assert (Hi : nth_error (parent_images (df s)) (List.length pre) = Some ref)
      by (rewrite Hs; apply nth_error_middle).
    rewrite (bind_ok _ _ _ _ _ (pin_parent_image_spec _ _ _ Hi)).
    rewrite <- length_snoc with (x := pinned_entry ref).
    rewrite IH.
    + cbn [df trace set_parent_images map flat_map].
      rewrite <- !app_assoc. reflexivity.
    + cbn [df parent_images set_parent_images].
      rewrite Hs, list_update_middle. apply app_cons_assoc.
Qed.

Lemma rewrite_from_instruction (pis : list string) (c : nat) (st : list command) :
  map instruction (rewrite_from pis c st) = map instruction st.
Proof.
  revert c; induction st as [|r st IH]; intros c; [reflexivity|].
  cbn [rewrite_from]. destruct (is_instruction "FROM" r).
  - destruct (nth_error pis c); [|reflexivity]. cbn. now rewrite IH.
  - cbn. now rewrite IH.
Qed.

Lemma rewrite_from_count (pis : list string) (c : nat) (st : list command) :
  count_from (rewrite_from pis c st) = count_from st.
Proof.
  unfold count_from.
  revert c; induction st as [|r st IH]; intros c; [reflexivity|].
  cbn [rewrite_from]. destruct (is_instruction "FROM" r) eqn:E.
  - destruct (nth_error pis c).
    + cbn [filter]. unfold is_instruction at 1. cbn [instruction].
      fold (is_instruction "FROM" r). rewrite E. cbn. now rewrite IH.
    + reflexivity.
  - cbn [filter]. rewrite E. apply IH.
Qed.

Lemma rewrite_from_other (pis : list string) (c j : nat) (st : list command) (r : command) :
  nth_error st j = Some r ->
  is_instruction "FROM" r = false ->
  nth_error (rewrite_from pis c st) j = Some r.
Proof.
  revert c j; induction st as [|x st IH]; intros c [|j] Hj Hr;
    try discriminate.
  - cbn in Hj. injection Hj as ->. cbn [rewrite_from]. now rewrite Hr.
  - cbn in Hj. cbn [rewrite_from]. destruct (is_instruction "FROM" x).
    + destruct (nth_error pis c); cbn; [now apply IH | exact Hj].
    + cbn. now apply IH.
Qed.

(** The FROM records of the rewritten structure, in order: one for each
    entry from [counter] on. *)
Lemma rewrite_from_records (pis : list string) (c : nat) (st : list command) :
  count_from st + c <= List.length pis ->
  filter (is_instruction "FROM") (rewrite_from pis c st)
  = map (fun '(r, parent) =>
           {| instruction := instruction r; value := parent;
              content := (instruction r ++ " " ++ parent ++ Str.nl)%string |})
      (combine (filter (is_instruction "FROM") st) (skipn c pis)).
Proof.
  unfold count_from.
  revert c; induction st as [|r st IH]; intros c Hc; [reflexivity|].
  cbn [rewrite_from filter] in *. destruct (is_instruction "FROM" r) eqn:E.
  - cbn [List.length] in Hc.
    destruct (nth_error pis c) as [parent|] eqn:Hn.
    + cbn [filter]. unfold is_instruction at 1. cbn [instruction].
      fold (is_instruction "FROM" r). rewrite E.
      assert (Hsk : skipn c pis = parent :: skipn (c + 1) pis).
      { clear - Hn. revert c Hn. induction pis as [|x pis IHp];
          intros [|c] Hn; try discriminate.
        - cbn in Hn. now injection Hn as ->.
        - cbn in Hn. cbn. now apply IHp. }
      rewrite Hsk. cbn [combine map]. f_equal. apply IH. lia.
    + apply nth_error_None in Hn. lia.
  - cbn [filter]. rewrite E. apply IH. exact Hc.
Qed.

End Pinning.

Section PinningRun.

Context {ext : External}.
Local Open Scope list_scope.

(** The second loop, when [parent_images] has an entry for every FROM
    record that is left: no index is out of range. *)
Lemma update_structure_ok (suffix pre : list command) (c : nat) (s : state) :
  structure (df s) = pre ++ suffix ->
  count_from suffix + c <= List.length (parent_images (df s)) ->
  update_structure (enumerate_from (List.length pre) suffix) c s
  = (Ok tt,
     {| df := set_structure (df s)
                (pre ++ rewrite_from (parent_images (df s)) c suffix);
        trace := trace s |}).
Proof.
  revert pre c s; induction suffix as [|r suffix IH]; intros pre c s Hs Hc.
  - cbn. rewrite app_nil_r in *. rewrite <- Hs, set_structure_same.
    now rewrite state_eta.
  - cbn [enumerate_from update_structure rewrite_from].
    assert (Hr : nth_error (structure (df s)) (List.length pre) = Some r)
      by (rewrite Hs; apply nth_error_middle).
    destruct (is_instruction "FROM" r) eqn:E.
    + assert (Hlt : c < List.length (parent_images (df s))).
      { unfold count_from in Hc. cbn [filter] in Hc. rewrite E in Hc.
        cbn [List.length] in Hc. lia. }
      destruct (nth_error (parent_images (df s)) c) as [parent|] eqn:Hn;
        [|apply nth_error_None in Hn; lia].
      rewrite (bind_ok get_df _ s s (df s) eq_refl).
      rewrite (bind_ok _ _ _ _ _ (index_ok _ _ _ s Hn)).
      rewrite (bind_ok _ _ _ _ _ (assign_field_ok _ _ _ s Hr)).
      match goal with
      | |- bind get_df _ ?s1 = _ =>
          rewrite (bind_ok get_df _ s1 s1 (df s1) eq_refl)
      end.
      cbn [df parent_images set_structure].
      match goal with
      | |- bind _ _ ?s1 = _ =>
          rewrite (bind_ok _ _ _ _ _ (index_ok _ _ _ s1 Hn))
      end.
      rewrite Hs, list_update_middle.
      match goal with
      | |- bind (assign_field _ ?f) _ ?s1 = _ =>
          rewrite (bind_ok _ _ _ _ _
                     (assign_field_ok (List.length pre) f _ s1
                        (nth_error_middle pre suffix _)))
      end.
      cbn [df structure set_structure trace].
      rewrite list_update_middle.
      unfold with_value, with_content. cbn [instruction value content].
      match goal with
      | |- update_structure _ _ ?s1 = _ =>
          rewrite <- (length_snoc pre
            {| instruction := instruction r; value := parent;
               content := (instruction r ++ " " ++ parent ++ Str.nl)%string |});
          rewrite (IH _ (c + 1) s1)
      end.
      * cbn [df structure set_structure trace parent_images].
        now rewrite <- app_assoc.
      * cbn [df structure set_structure]. apply app_cons_assoc.
      * cbn [df parent_images set_structure].
        unfold count_from in *. cbn [filter] in Hc. rewrite E in Hc.
        cbn [List.length] in Hc. lia.
    + rewrite <- (length_snoc pre r). rewrite (IH (pre ++ [r]) c s).
      * now rewrite <- app_assoc.
      * rewrite Hs. apply app_cons_assoc.
      * unfold count_from in *. cbn [filter] in Hc. now rewrite E in Hc.
Qed.

(** The second loop writes to [structure] only, also when it raises. *)
Lemma update_structure_frame (l : list (nat * command)) (c : nat)
      (s s' : state) (res : result unit) :
  update_structure l c s = (res, s') ->
  parent_images (df s') = parent_images (df s) /\ trace s' = trace s.
Proof.
  revert c s; induction l as [|[i r] l IH]; intros c s H.
  - cbn in H. injection H as _ <-. now split.
  - cbn [update_structure] in H.
    destruct (is_instruction "FROM" r); [|now apply IH in H].
    unfold assign_field, bind, get_df, index, put_df, raise, ret in H.
    cbn [df] in H.
    repeat (match type of H with
            | context [match nth_error ?x ?y with _ => _ end] =>
                destruct (nth_error x y)
            end; cbn in H; [|injection H as _ <-; now split]).
    apply IH in H. cbn in H. exact H.
Qed.

(** What a run of [expand_from_images] leaves in [parent_images] and in
    the trace, whether it returns or raises. *)
Lemma expand_from_images_frame (d : Dockerfile) (res : result unit) (s' : state) :
  run expand_from_images d = (res, s') ->
  parent_images (df s') = map pinned_entry (parent_images d) /\
  trace s' = flat_map pin_events (parent_images d).
Proof.
  unfold run, expand_from_images. intros H.
  rewrite (bind_ok get_df _ _ _ _ eq_refl) in H.
  cbn [df] in H. unfold parse_from_image, enumerate in H.
  change 0 with (@List.length string []) in H at 1.
  rewrite (bind_ok _ _ _ _ _
             (pin_loop_spec (parent_images d) []
                {| df := d; trace := [] |} eq_refl)) in H.
  rewrite (bind_ok get_df _ _ _ _ eq_refl) in H.
  apply update_structure_frame in H. exact H.
Qed.

Lemma expand_from_images_ok (d : Dockerfile) :
  count_from (structure d) <= List.length (parent_images d) ->
  run expand_from_images d
  = (Ok tt,
     {| df := set_structure
                (set_parent_images d (map pinned_entry (parent_images d)))
                (rewrite_from (map pinned_entry (parent_images d)) 0
                   (structure d));
        trace := flat_map pin_events (parent_images d) |}).
Proof.
  intros Hc. unfold run, expand_from_images.
  rewrite (bind_ok get_df _ _ _ _ eq_refl).
  cbn [df]. unfold parse_from_image, enumerate.
  change 0 with (@List.length string []) at 1.
  rewrite (bind_ok _ _ _ _ _
             (pin_loop_spec (parent_images d) []
                {| df := d; trace := [] |} eq_refl)).
  rewrite (bind_ok get_df _ _ _ _ eq_refl).
  cbn [df trace structure set_parent_images app].
  change 0 with (@List.length command []) at 1.
  rewrite update_structure_ok.
  - reflexivity.
  - reflexivity.
  - cbn [df parent_images set_parent_images]. rewrite length_map. lia.
Qed.

Lemma pinned_entry_of_pinned (ref : string) :
  Str.truthy (digest_type (parse_image_string ref)) = true ->
  pinned_entry ref = ref.
Proof. intros H. unfold pinned_entry. now rewrite (unpinned_false _ H). Qed.

Lemma pinned_entry_not_found (ref : string) :
  get_image (lookup_key (parse_image_string ref)) = None ->
  pinned_entry ref = ref.
Proof.
  intros H. unfold pinned_entry. rewrite H.
  now destruct (unpinned (parse_image_string ref)).
Qed.

End PinningRun.

Section ParentImages.

Local Open Scope list_scope.

Lemma update_parent_images_fold (st : list command) (acc : list string) :
  fold_left update_parent_images_step st acc
  = acc ++ map (fun r => re_split_as_head (value r))
             (filter (is_instruction "FROM") st).
Proof.
  revert acc; induction st as [|r st IH]; intros acc; cbn [fold_left filter].
  - now rewrite app_nil_r.
  - rewrite IH. unfold update_parent_images_step.
    destruct (is_instruction "FROM" r); [|reflexivity].
    cbn [map]. now rewrite <- app_assoc.
Qed.

Lemma map_combine_snd {X Y Z : Type} (g : X * Y -> Z) (h : Y -> Z)
      (l1 : list X) (l2 : list Y) :
  (forall x y, g (x, y) = h y) ->
  List.length l1 = List.length l2 ->
  map g (combine l1 l2) = map h l2.
Proof.
  intros Hg. revert l2; induction l1 as [|x l1 IH]; intros [|y l2] Hl;
    try discriminate; [reflexivity|].
  cbn. rewrite Hg. f_equal. apply IH. now injection Hl.
Qed.

Lemma nth_error_combine {X Y : Type} (l1 : list X) (l2 : list Y)
      (i : nat) (x : X) (y : Y) :
  nth_error l1 i = Some x -> nth_error l2 i = Some y ->
  nth_error (combine l1 l2) i = Some (x, y).
Proof.
  revert l2 i; induction l1 as [|a l1 IH]; intros [|b l2] [|i] H1 H2;
    try discriminate.
  - cbn in *. now injection H1 as ->; injection H2 as ->.
  - cbn in *. now apply IH.
Qed.

Lemma is_from_instruction (r : command) :
  is_instruction "FROM" r = true -> instruction r = "FROM".
Proof. unfold is_instruction. apply String.eqb_eq. Qed.

End ParentImages.

Lemma expand_from_images_in_order (ext : External) (dfobj : Dockerfile) :
  List.length (parent_images dfobj) = count_from (structure dfobj) ->
  pinned_in_order dfobj.
Proof.
  intros Hlen. unfold pinned_in_order.
  assert (Hc : count_from (structure dfobj) <= List.length (parent_images dfobj))
    by lia.
  eexists. split; [apply (expand_from_images_ok dfobj Hc)|].
  cbn [df structure parent_images set_structure set_parent_images].
  assert (Hrec := rewrite_from_records
            (map pinned_entry (parent_images dfobj)) 0 (structure dfobj)).
  rewrite length_map in Hrec. specialize (Hrec ltac:(lia)).
  cbn [skipn] in Hrec.
  assert (Hl : List.length (filter (is_instruction "FROM") (structure dfobj))
               = List.length (map pinned_entry (parent_images dfobj)))
    by (rewrite length_map; symmetry; exact Hlen).
  repeat split.
  + rewrite rewrite_from_count, length_map. exact Hlen.
  + rewrite Hrec, map_map.
    rewrite (map_combine_snd _ (fun parent => parent)); [apply map_id | | exact Hl].
    reflexivity.
  + rewrite Hrec, map_map.
    assert (Hfrom : forall l1 l2,
               Forall (fun r => instruction r = "FROM") l1 ->
               List.length l1 = List.length l2 ->
               map (fun x : command * string =>
                      content (let '(r, parent) := x in
                               {| instruction := instruction r; value := parent;
                                  content := instruction r ++ " " ++ parent ++ Str.nl |}))
                 (combine l1 l2)
               = map (fun parent => "FROM " ++ parent ++ Str.nl) l2).
    { induction l1 as [|x l1 IH]; intros [|y l2] Hall Hlen'; try discriminate;
        [reflexivity|].
      inversion Hall as [|? ? Hx Hrest]; subst. cbn [combine map content].
      rewrite Hx. f_equal. apply IH; [exact Hrest | now injection Hlen']. }
    apply Hfrom; [|exact Hl].
    apply Forall_forall. intros r Hr. apply filter_In in Hr as [_ Hr].
    now apply is_from_instruction.
  + apply rewrite_from_instruction.
  + intros j r Hj Hr. now apply rewrite_from_other.
Qed.


(** C8.  [update_parent_images] leaves as many parent images as there are
    FROM instructions.  When the two agree, and so after
    [update_parent_images], [expand_from_images] returns, they still agree
    afterwards, and the FROM instructions carry the entries of
    [parent_images] in order: the i-th FROM instruction has the i-th entry as
    its [value] and ["FROM " + entry + "\n"] as its [content]; the
    instructions keep their places and the others are not touched. *)
Theorem parent_images_follow_from_instructions
  (ext : External) (dfobj : Dockerfile) :
  List.length (parent_images (update_parent_images dfobj))
  = count_from (structure (update_parent_images dfobj)) /\
  (List.length (parent_images dfobj) = count_from (structure dfobj) ->
   pinned_in_order dfobj) /\
  pinned_in_order (update_parent_images dfobj).
Proof.
  assert (Hupd : List.length (parent_images (update_parent_images dfobj))
                 = count_from (structure (update_parent_images dfobj))).
  { unfold update_parent_images, count_from.
    cbn [parent_images structure set_parent_images].
    rewrite update_parent_images_fold. cbn [app]. apply length_map. }
  refine (conj Hupd (conj _ _)).
  - apply expand_from_images_in_order.
  - apply expand_from_images_in_order. exact Hupd.
Qed.

Lemma parent_images_follow_from_instructions_witness :
  exists s',
    @run ubuntu_registry unit expand_from_images scenario_two_stage = (Ok tt, s') /\
    parent_images (df s') = ["ubuntu@sha256:abcd"; "alpine@sha256:ef01"] /\
    map content (structure (df s'))
    = [line "FROM ubuntu@sha256:abcd"; line "RUN make";
       line "FROM alpine@sha256:ef01"; line "ADD ./src /dst"].
Proof.
  destruct (parent_images_follow_from_instructions
              ubuntu_registry scenario_two_stage) as (_ & H & _).
  destruct (H eq_refl) as (s' & Hrun & _).
  exists s'. split; [exact Hrun|].
  vm_compute in Hrun. injection Hrun as <-. split; reflexivity.
Defined.

(** C6, as the code has it.  When the lookup of a parent image fails and
    [parent_images] has an entry for every FROM instruction,
    [expand_from_images] returns without raising; the log holds the error
    that names the reference, the entry is still the unpinned reference,
    and the FROM instruction at the same rank is rewritten from that entry:
    its [value] becomes the entry and its [content] the keyword, a space,
    the entry and a line feed.  The FROM line is therefore left as it was
    exactly when it already had that form. *)
Theorem failed_lookup_is_logged_and_entry_kept
  (ext : External) (dfobj : Dockerfile) (i : nat) (ref : string) :
  count_from (structure dfobj) <= List.length (parent_images dfobj) ->
  nth_error (parent_images dfobj) i = Some ref ->
  unpinned (parse_image_string ref) = true ->
  get_image (lookup_key (parse_image_string ref)) = None ->
  exists s',
    run expand_from_images dfobj = (Ok tt, s') /\
    In (GetImage (lookup_key (parse_image_string ref))) (trace s') /\
    In (LogError ("Error pinning digest to '" ++ ref ++ "'. Image not found."))
       (trace s') /\
    nth_error (parent_images (df s')) i = Some ref /\
    (forall r,
        nth_error (filter (is_instruction "FROM") (structure dfobj)) i = Some r ->
        nth_error (filter (is_instruction "FROM") (structure (df s'))) i
        = Some {| instruction := instruction r;
                  value := ref;
                  content := instruction r ++ " " ++ ref ++ Str.nl |}) /\
    (forall r,
        nth_error (filter (is_instruction "FROM") (structure dfobj)) i = Some r ->
        value r = ref ->
        content_consistent r ->
        nth_error (filter (is_instruction "FROM") (structure (df s'))) i = Some r).
Proof.
  intros Hc Hi Hun Hget.
  eexists. split; [apply (expand_from_images_ok dfobj Hc)|].
  cbn [df trace structure parent_images set_structure set_parent_images].
  assert (Hev : pin_events ref
                = [GetImage (lookup_key (parse_image_string ref));
                   LogError (not_found_message ref)]).
  { unfold pin_events. now rewrite Hun, Hget. }
  assert (Hin : In ref (parent_images dfobj)) by (eapply nth_error_In; eauto).
  assert (Hi' : nth_error (map pinned_entry (parent_images dfobj)) i = Some ref).
  { rewrite nth_error_map, Hi. cbn. now rewrite (pinned_entry_not_found ref Hget). }
  assert (Hrec := rewrite_from_records
            (map pinned_entry (parent_images dfobj)) 0 (structure dfobj)).
  rewrite length_map in Hrec. specialize (Hrec ltac:(lia)). cbn [skipn] in Hrec.
  assert (Hith : forall r,
             nth_error (filter (is_instruction "FROM") (structure dfobj)) i = Some r ->
             nth_error
               (filter (is_instruction "FROM")
                  (rewrite_from (map pinned_entry (parent_images dfobj)) 0
                     (structure dfobj))) i
             = Some {| instruction := instruction r; value := ref;
                       content := instruction r ++ " " ++ ref ++ Str.nl |}).
  { intros r Hr. rewrite Hrec.
    rewrite nth_error_map, (nth_error_combine _ _ _ _ _ Hr Hi'). reflexivity. }
  refine (conj _ (conj _ (conj _ (conj _ _)))).
  - apply in_flat_map. exists ref. split; [exact Hin|]. rewrite Hev. now left.
  - apply in_flat_map. exists ref. split; [exact Hin|]. rewrite Hev.
    right; left. reflexivity.
  - exact Hi'.
  - exact Hith.
  - intros r Hr Hv Hcons. rewrite (Hith r Hr). f_equal.
    apply command_eq; cbn [instruction value content]; auto.
    unfold content_consistent in Hcons. now rewrite Hcons, Hv.
Qed.

Lemma failed_lookup_witness :
  exists s',
    @run no_registry unit expand_from_images scenario_private = (Ok tt, s') /\
    In (LogError "Error pinning digest to 'private/img:latest'. Image not found.")
       (trace s') /\
    parent_images (df s') = ["private/img:latest"] /\
    structure (df s') = structure scenario_private.
Proof.
  destruct (@failed_lookup_is_logged_and_entry_kept
              no_registry scenario_private 0 "private/img:latest")
    as (s' & Hrun & _ & Hlog & _);
    [apply Nat.leb_le; reflexivity | reflexivity ..|].
  exists s'. split; [exact Hrun|]. split; [exact Hlog|].
  vm_compute in Hrun. injection Hrun as <-. split; reflexivity.
Defined.

(** C6, as stated, fails: for [FROM private/img:latest AS build], whose
    parent image is [private/img:latest], a failed lookup leaves the entry
    unpinned and logs the error, but the FROM line is rewritten from the
    entry and loses its stage name. *)
Lemma failed_lookup_rewrites_aliased_from :
  @run no_registry unit expand_from_images scenario_alias
  = (Ok tt,
     {| df := dockerfile_of
                [Command "FROM" "private/img:latest"
                   (line "FROM private/img:latest")]
                None None ["private/img:latest"];
        trace := [GetImage "private/img:latest";
                  LogError
                    "Error pinning digest to 'private/img:latest'. Image not found."] |}) /\
  map content (structure scenario_alias)
  = [line "FROM private/img:latest AS build"] /\
  map content
    (structure (df (snd (@run no_registry unit expand_from_images scenario_alias))))
  <> map content (structure scenario_alias).
Proof.
  repeat split. vm_compute. discriminate.
Qed.

(** C7.  For a parent image that is already pinned (its parsed form has
    both [digest_type] and [digest]), the turn of the first loop of
    [expand_from_images] does nothing at all; after the run, returned or
    raised, the entry is what it was, and every [get_image] and
    [get_image_digest] call in the trace belongs to another entry, one
    that has neither digest type nor digest. *)
Theorem pinned_reference_is_not_queried
  (ext : External) (dfobj : Dockerfile) (i : nat) (ref : string) :
  nth_error (parent_images dfobj) i = Some ref ->
  Str.truthy (digest_type (parse_image_string ref)) = true ->
  Str.truthy (digest (parse_image_string ref)) = true ->
  (forall s, pin_parent_image i (parse_image_string ref) s = (Ok tt, s)) /\
  (forall res s',
      run expand_from_images dfobj = (res, s') ->
      nth_error (parent_images (df s')) i = Some ref /\
      (forall key,
          In (GetImage key) (trace s') ->
          exists j ref',
            j <> i /\
            nth_error (parent_images dfobj) j = Some ref' /\
            unpinned (parse_image_string ref') = true /\
            key = lookup_key (parse_image_string ref')) /\
      (forall image,
          In (GetImageDigest image) (trace s') ->
          exists j ref',
            j <> i /\
            nth_error (parent_images dfobj) j = Some ref' /\
            unpinned (parse_image_string ref') = true /\
            get_image (lookup_key (parse_image_string ref')) = Some image)).
Proof.
  intros Hi Hty Hdg. split.
  - intros s. unfold pin_parent_image. now rewrite Hty.
  - intros res s' Hrun.
    destruct (expand_from_images_frame dfobj res s' Hrun) as [Hpis Htr].
    assert (Hother : forall ref',
               unpinned (parse_image_string ref') = true ->
               In ref' (parent_images dfobj) ->
               exists j, j <> i /\ nth_error (parent_images dfobj) j = Some ref').
    { intros ref' Hun Hin. apply In_nth_error in Hin as [j Hj].
      exists j. split; [|exact Hj]. intros ->.
      rewrite Hi in Hj. injection Hj as <-.
      rewrite (unpinned_false _ Hty) in Hun. discriminate. }
    repeat split.
    + rewrite Hpis, nth_error_map, Hi. cbn.
      now rewrite (pinned_entry_of_pinned ref Hty).
    + intros key Hin. rewrite Htr in Hin.
      apply in_flat_map in Hin as (ref' & Hin' & Hev).
      unfold pin_events in Hev.
      destruct (unpinned (parse_image_string ref')) eqn:Hun; [|destruct Hev].
      destruct (Hother ref' Hun Hin') as (j & Hne & Hj).
      exists j, ref'. repeat split; try assumption.
      destruct (get_image (lookup_key (parse_image_string ref')));
        destruct Hev as [E | [E | []]]; congruence.
    + intros image Hin. rewrite Htr in Hin.
      apply in_flat_map in Hin as (ref' & Hin' & Hev).
      unfold pin_events in Hev.
      destruct (unpinned (parse_image_string ref')) eqn:Hun; [|destruct Hev].
      destruct (Hother ref' Hun Hin') as (j & Hne & Hj).
      exists j, ref'. repeat split; try assumption.
      destruct (get_image (lookup_key (parse_image_string ref'))) eqn:Hg;
        destruct Hev as [E | [E | []]]; congruence.
Qed.

Lemma pinned_reference_witness :
  nth_error
    (parent_images
       (df (snd (@run ubuntu_registry unit expand_from_images scenario_two_stage))))
    1
  = Some "alpine@sha256:ef01" /\
  (forall key,
      In (GetImage key)
         (trace (snd (@run ubuntu_registry unit expand_from_images scenario_two_stage))) ->
      exists j ref',
        j <> 1 /\
        nth_error (parent_images scenario_two_stage) j = Some ref' /\
        unpinned (parse_ref ref') = true /\
        key = lookup_key (parse_ref ref')).
Proof.
  destruct (@pinned_reference_is_not_queried
              ubuntu_registry scenario_two_stage 1 "alpine@sha256:ef01"
              eq_refl eq_refl eq_refl) as [_ H].
  destruct (H _ _ (surjective_pairing _)) as (Hentry & Hcalls & _).
  split; [exact Hentry | exact Hcalls].
Defined.

(** ** The annotation stage *)

Section Annotation.

Context {ext : External}.
Local Open Scope list_scope.

(** [find_git_info] never writes to the object; what it returns, when it
    returns, is the answer of [check_git_src]. *)
Lemma find_git_info_result (line' path : string) (s s1 : state)
      (res : result string) :
  find_git_info line' path s = (res, s1) ->
  df s1 = df s /\ (forall c, res = Ok c -> c = check_git_src path).
Proof.
  unfold find_git_info, call_check_git_src, index, bind, emit, ret, raise.
  intros H.
  destruct (nth_error (Str.split line' Str.space) 1) as [arg1|];
    [|injection H as <- <-; split; [reflexivity | discriminate]].
  destruct (Str.startswith arg1 "--chown").
  - destruct (Nat.ltb (List.length (Str.split line' Str.space)) 4);
      destruct (nth_error (Str.split line' Str.space) 2);
      cbn in H; injection H as <- <-;
      (split; [reflexivity | intros c E; congruence]).
  - destruct (Nat.ltb (List.length (Str.split line' Str.space)) 3);
      cbn in H; injection H as <- <-;
      (split; [reflexivity | intros c E; congruence]).
Qed.

Lemma annotate_add_ok (path : string) (i : nat) (r : command) (s s' : state) :
  nth_error (structure (df s)) i = Some r ->
  annotate_add path i r s = (Ok tt, s') ->
  df s' = set_structure (df s)
            (list_update (structure (df s)) i (annotated path r)).
Proof.
  intros Hi H. unfold annotate_add, annotated in *.
  destruct (is_instruction "ADD" r).
  - unfold bind in H.
    destruct (find_git_info (content r) path s) as [[c|e] s1] eqn:Hgit;
      [|discriminate].
    destruct (find_git_info_result _ _ _ _ _ Hgit) as [Hdf Hc].
    rewrite (Hc c eq_refl) in H.
    assert (Hi1 : nth_error (structure (df s1)) i = Some r) by now rewrite Hdf.
    rewrite (assign_field_ok _ _ _ s1 Hi1) in H.
    assert (Hlt : i < List.length (structure (df s1)))
      by (apply nth_error_Some; congruence).
    match type of H with
    | assign_field i ?f2 ?s2 = _ =>
        rewrite (assign_field_ok i f2 _ s2
                   (nth_error_list_update _ _ _ Hlt)) in H
    end.
    injection H as <-.
    cbn [df structure set_structure trace].
    rewrite list_update_twice, Hdf. reflexivity.
  - injection H as <-.
    now rewrite (list_update_same _ _ _ Hi), set_structure_same.
Qed.

(** The loop of [expand_add_command], when it returns. *)
Lemma annotate_loop_ok (path : string) (suffix pre : list command) (s s' : state) :
  structure (df s) = pre ++ suffix ->
  for_each (enumerate_from (List.length pre) suffix)
    (fun '(i, command_dict) => annotate_add path i command_dict) s
  = (Ok tt, s') ->
  df s' = set_structure (df s) (pre ++ map (annotated path) suffix).
Proof.
  revert pre s; induction suffix as [|r suffix IH]; intros pre s Hs H.
  - cbn in H. injection H as <-. cbn. rewrite app_nil_r in *.
    now rewrite <- Hs, set_structure_same.
  - cbn [enumerate_from for_each] in H. unfold bind in H.
    destruct (annotate_add path (List.length pre) r s) as [[[]|e] s1] eqn:Hr;
      [|discriminate].
    assert (Hi : nth_error (structure (df s)) (List.length pre) = Some r)
      by (rewrite Hs; apply nth_error_middle).
    pose proof (annotate_add_ok _ _ _ _ _ Hi Hr) as Hdf.
    rewrite Hs, list_update_middle in Hdf.
    rewrite <- (length_snoc pre (annotated path r)) in H.
    apply IH in H.
    + rewrite H, Hdf. cbn [map set_structure structure envs prev_env
                             filepath parent_images].
      now rewrite <- app_assoc.
    + rewrite Hdf. cbn [structure set_structure]. apply app_cons_assoc.
Qed.

Lemma expand_add_command_ok (d : Dockerfile) (s' : state) :
  run expand_add_command d = (Ok tt, s') ->
  df s' = set_structure d (map (annotated (filepath d)) (structure d)).
Proof.
  unfold run, expand_add_command. intros H.
  rewrite (bind_ok get_df _ _ _ _ eq_refl) in H. cbn [df] in H.
  unfold enumerate in H. change 0 with (@List.length command []) in H.
  apply annotate_loop_ok in H; [exact H | reflexivity].
Qed.

(** An annotated ADD record is consistent when it was and its value did
    not end with a line feed. *)
Lemma annotated_consistent (path : string) (r : command) :
  is_instruction "ADD" r = true ->
  content_consistent r ->
  Str.endswith_char (value r) Str.newline = false ->
  content_consistent (annotated path r) /\
  value (annotated path r) = (value r ++ " # " ++ check_git_src path)%string.
Proof.
  intros Hadd Hc Hend. unfold annotated. rewrite Hadd.
  split; [|reflexivity].
  unfold content_consistent in *. cbn [instruction value content].
  rewrite Hc.
  apply String.eqb_eq in Hadd. rewrite Hadd.
  unfold Str.strip.
  change (Str.lstrip ("ADD" ++ " " ++ value r ++ Str.nl) Str.newline)
    with (("ADD " ++ value r) ++ Str.nl)%string.
  rewrite rstrip_newline.
  - cbn. now rewrite !append_assoc.
  - destruct (value r) as [|c v] eqn:E; [reflexivity|].
    rewrite endswith_char_append by discriminate. exact Hend.
Qed.

End Annotation.

(** C1, as the code has it.  [expand_package] and [expand_from_images]
    write [content] anew from [instruction] and [value]: every record they
    rewrite has [content == instruction + " " + value + "\n"].
    [replace_env] and [expand_add_command] edit [value] and [content] side
    by side: a record that had the equality before keeps it (for
    [replace_env], when the keyword holds no "$" and no key holds a line
    feed; for [expand_add_command], when the value does not end with a line
    feed), the comment being appended to the value as well. *)
Theorem mutations_keep_content_consistent (ext : External) :
  (forall r package version pinning_separator,
      content_consistent (expand_package r package version pinning_separator)) /\
  (forall dfobj,
      count_from (structure dfobj) <= List.length (parent_images dfobj) ->
      exists s',
        run expand_from_images dfobj = (Ok tt, s') /\
        forall r, In r (structure (df s')) ->
                  is_instruction "FROM" r = true ->
                  content_consistent r) /\
  (forall d r,
      content_consistent r ->
      Str.has_char Str.dollar (instruction r) = false ->
      (forall k v, In (k, v) d -> Str.has_char Str.newline k = false) ->
      content_consistent (replace_env d r)) /\
  (forall dfobj s' i r,
      run expand_add_command dfobj = (Ok tt, s') ->
      nth_error (structure dfobj) i = Some r ->
      is_instruction "ADD" r = true ->
      content_consistent r ->
      Str.endswith_char (value r) Str.newline = false ->
      exists r',
        nth_error (structure (df s')) i = Some r' /\
        value r' = value r ++ " # " ++ check_git_src (filepath dfobj) /\
        content_consistent r').
Proof.
  refine (conj _ (conj _ (conj _ _))).
  - intros r package version sep. reflexivity.
  - intros dfobj Hc. eexists. split; [apply (expand_from_images_ok dfobj Hc)|].
    cbn [df structure set_structure]. intros r Hin Hfrom.
    assert (Hf : In r (filter (is_instruction "FROM")
                         (rewrite_from (map pinned_entry (parent_images dfobj)) 0
                            (structure dfobj))))
      by (apply filter_In; now split).
    rewrite rewrite_from_records in Hf
      by (rewrite length_map; lia).
    apply in_map_iff in Hf as ([r0 parent] & <- & _). reflexivity.
  - intros d r. apply replace_env_consistent.
  - intros dfobj s' i r Hrun Hi Hadd Hc Hend.
    exists (annotated (filepath dfobj) r).
    destruct (annotated_consistent (filepath dfobj) r Hadd Hc Hend) as [Hc' Hv].
    rewrite (expand_add_command_ok dfobj s' Hrun).
    cbn [structure set_structure].
    split; [now apply map_nth_error | split; assumption].
Qed.

Lemma mutations_keep_content_consistent_witness :
  (exists s',
      @run ubuntu_registry unit expand_from_images scenario_two_stage = (Ok tt, s') /\
      forall r, In r (structure (df s')) ->
                is_instruction "FROM" r = true -> content_consistent r) /\
  content_consistent
    (replace_env app_envs (Command "COPY" "$APP /app" (line "COPY $APP /app"))) /\
  (exists r',
      nth_error
        (structure
           (df (snd (@run ubuntu_registry unit expand_add_command scenario_two_stage))))
        3 = Some r' /\
      value r' = "./src /dst" ++ " # " ++ "repo@abc123" /\
      content_consistent r').
Proof.
  destruct (mutations_keep_content_consistent ubuntu_registry)
    as (_ & Hfrom & Henv & Hadd).
  refine (conj _ (conj _ _)).
  - apply Hfrom. apply Nat.leb_le. reflexivity.
  - apply Henv; try reflexivity.
    intros k v [E | []]. inversion E. reflexivity.
  - apply (Hadd scenario_two_stage _ 3
             (Command "ADD" "./src /dst" (line "ADD ./src /dst")));
      reflexivity.
Defined.

(** C1, as stated, fails: the parser keeps a line as it was written, so
    for [RUN  echo $X] (two spaces) the record has the value [echo $X] and
    the content [RUN  echo $X]; after [replace_env] with [{X: 1}] the value
    is [echo 1] and the content [RUN  echo 1], which is neither
    ["RUN" + " " + value + "\n"] nor that line with a comment appended. *)
Lemma replace_env_keeps_the_written_line :
  replace_env [("X", "1")] run_two_spaces
  = Command "RUN" "echo 1" (line "RUN  echo 1") /\
  ~ content_reconstructible (replace_env [("X", "1")] run_two_spaces).
Proof.
  split; [reflexivity|].
  intros [H | [comment H]]; vm_compute in H; discriminate.
Qed.

(** C9, at the failing input.  For the ADD line [ADD --chown=user:group]
    [find_git_info] logs the invalid command line and then reads the third
    token, which is not there: the index error ends [expand_add_command]
    and [create_locked_dockerfile], and no annotated line is produced.  The
    other short form, [ADD ./src], is logged and annotated. *)
Theorem chown_without_source_raises (ext : External) :
  find_git_info (line "ADD --chown=user:group") "Dockerfile"
    {| df := scenario_chown_only; trace := [] |}
  = (Raise IndexError,
     {| df := scenario_chown_only;
        trace := [LogError "Invalid ADD command line"] |}) /\
  run expand_add_command scenario_chown_only
  = (Raise IndexError,
     {| df := scenario_chown_only;
        trace := [LogError "Invalid ADD command line"] |}) /\
  fst (run create_locked_dockerfile scenario_chown_only) = Raise IndexError /\
  fst (run create_locked_dockerfile scenario_add_src_only)
  = Ok ("ADD ./src # " ++ check_git_src "Dockerfile" ++ Str.nl) /\
  In (LogError "Invalid ADD command line")
     (trace (snd (run create_locked_dockerfile scenario_add_src_only))).
Proof.
  refine (conj _ (conj _ (conj _ (conj _ _)))); try reflexivity.
  cbn. now left.
Qed.


(** ** Parent images read from the FROM lines *)

Section SplitAs.

Import Str.

Lemma matches_as_head (c : ascii) (s : string) :
  matches_as (String c s) = true -> c = space.
Proof.
  destruct s as [|c1 [|c2 s]]; cbn; try discriminate.
  intros H. apply andb_true_iff in H as [H _].
  apply andb_true_iff in H as [H _]. now apply Ascii.eqb_eq in H.
Qed.

Lemma re_split_as_head_no_space (s : string) :
  has_char space s = false -> re_split_as_head s = s.
Proof.
  induction s as [|c s IH]; intros H; [reflexivity|].
  cbn [has_char] in H. apply orb_false_iff in H as [Hc Hs].
  cbn [re_split_as_head].
  destruct (matches_as (String c s)) eqn:E.
  - apply matches_as_head in E. subst c.
    unfold space in Hc. rewrite Ascii.eqb_refl in Hc. discriminate.
  - now rewrite IH.
Qed.

Lemma re_split_as_head_alias (image rest : string) :
  has_char space image = false ->
  matches_as rest = true ->
  re_split_as_head (image ++ rest) = image.
Proof.
  intros Himg Hrest. induction image as [|c image IH].
  - destruct rest as [|c0 rest]; [discriminate|].
    cbn [append re_split_as_head]. now rewrite Hrest.
  - cbn [has_char] in Himg. apply orb_false_iff in Himg as [Hc Hs].
    change (String c image ++ rest) with (String c (image ++ rest)).
    cbn [re_split_as_head].
    destruct (matches_as (String c (image ++ rest))) eqn:E.
    + apply matches_as_head in E. subst c.
      unfold space in Hc. rewrite Ascii.eqb_refl in Hc. discriminate.
    + now rewrite IH.
Qed.

End SplitAs.

(** X1.  [update_parent_images] gives the i-th FROM instruction the text of
    its value before the first [" as"], in any letter case: for a value
    that is an image reference without a space, alone or followed by
    [" as"], [" AS"], [" As"] or [" aS"] and any text, the i-th parent image
    is that image reference. *)
Theorem parent_image_is_text_before_alias
  (dfobj : Dockerfile) (i : nat) (r : command) (image kw alias : string) :
  nth_error (filter (is_instruction "FROM") (structure dfobj)) i = Some r ->
  Str.has_char Str.space image = false ->
  value r = image \/
  ((kw = "as" \/ kw = "AS" \/ kw = "As" \/ kw = "aS") /\
   value r = image ++ " " ++ kw ++ alias) ->
  nth_error (parent_images (update_parent_images dfobj)) i = Some image.
Proof.
  intros Hi Himg Hv. unfold update_parent_images.
  cbn [parent_images set_parent_images].
  rewrite update_parent_images_fold. cbn [app].
  rewrite nth_error_map, Hi. cbn [option_map]. f_equal.
  destruct Hv as [-> | [Hkw ->]].
  - now apply re_split_as_head_no_space.
  - apply re_split_as_head_alias; [exact Himg|].
    destruct Hkw as [-> | [-> | [-> | ->]]]; reflexivity.
Qed.

Lemma parent_image_is_text_before_alias_witness :
  nth_error (parent_images (update_parent_images scenario_stage_names)) 0
  = Some "golang:1.12" /\
  nth_error (parent_images (update_parent_images scenario_stage_names)) 1
  = Some "alpine".
Proof.
  split.
  - apply (parent_image_is_text_before_alias scenario_stage_names 0
             (Command "FROM" "golang:1.12 AS builder"
                (line "FROM golang:1.12 AS builder"))
             "golang:1.12" "AS" " builder"); try reflexivity.
    right. split; [right; left|]; reflexivity.
  - apply (parent_image_is_text_before_alias scenario_stage_names 1
             (Command "FROM" "alpine" (line "FROM alpine"))
             "alpine" "" ""); try reflexivity.
    left. reflexivity.
Defined.

(** ** The ARG dictionary *)

Section ArgDict.

Import Str.
Local Open Scope list_scope.

Lemma split_no_separator (s : string) (c : ascii) :
  has_char c s = false -> split s c = [s].
Proof.
  induction s as [|a s IH]; intros H; [reflexivity|].
  cbn [has_char] in H. apply orb_false_iff in H as [Ha Hs].
  cbn [split]. rewrite Ha, (IH Hs). reflexivity.
Qed.

Lemma split_one_separator (k v : string) (c : ascii) :
  has_char c k = false -> has_char c v = false ->
  split (k ++ String c v) c = [k; v].
Proof.
  intros Hk Hv. induction k as [|a k IH].
  - cbn [append split]. rewrite Ascii.eqb_refl.
    now rewrite (split_no_separator v c Hv).
  - cbn [has_char] in Hk. apply orb_false_iff in Hk as [Ha Hk].
    change (String a k ++ String c v)%string
      with (String a (k ++ String c v)%string).
    cbn [split]. rewrite Ha, (IH Hk). reflexivity.
Qed.

Lemma length_split (s : string) (c : ascii) :
  List.length (split s c) = S (count_char c s).
Proof.
  induction s as [|a s IH]; [reflexivity|].
  cbn [split count_char]. destruct (Ascii.eqb a c).
  - cbn [List.length]. now rewrite IH.
  - destruct (split s c) as [|w ws]; [discriminate IH|].
    cbn [List.length] in *. exact IH.
Qed.

Lemma dict_get_set_same (d : dict) (k v : string) :
  dict_get (dict_set d k v) k = Some v.
Proof.
  induction d as [|[k' v'] d IH]; cbn [dict_set dict_get].
  - now rewrite String.eqb_refl.
  - destruct (String.eqb k' k) eqn:E; cbn [dict_get]; rewrite E;
      [reflexivity | exact IH].
Qed.

Lemma dict_set_keys (d : dict) (k v x : string) :
  In x (map fst (dict_set d k v)) -> x = k \/ In x (map fst d).
Proof.
  induction d as [|[k' v'] d IH]; cbn [dict_set map fst In].
  - intros [<- | []]. now left.
  - destruct (String.eqb k' k); cbn [map fst In].
    + intros [<- | H]; right; [now left | now right].
    + intros [<- | H]; [right; now left|].
      destruct (IH H) as [-> | H']; [now left | right; now right].
Qed.

Lemma dict_set_nodup (d : dict) (k v : string) :
  NoDup (map fst d) -> NoDup (map fst (dict_set d k v)).
Proof.
  induction d as [|[k' v'] d IH]; intros H; cbn [dict_set map fst].
  - constructor; [intros [] | constructor].
  - inversion H as [|? ? Hnot Hrest]; subst.
    destruct (String.eqb_spec k' k) as [->|Hne]; cbn [map fst].
    + now constructor.
    + constructor; [|now apply IH].
      intros Hin. apply dict_set_keys in Hin as [-> | Hin]; auto.
Qed.

Lemma arg_dict_step_nodup (d : dict) (r : command) :
  NoDup (map fst d) -> NoDup (map fst (arg_dict_step d r)).
Proof.
  intros H. unfold arg_dict_step.
  destruct (is_instruction "ARG" r); [|exact H].
  destruct (split (value r) equals) as [|k [|v [|x l]]]; try exact H.
  now apply dict_set_nodup.
Qed.

Lemma fold_arg_dict_nodup (st : list command) (d : dict) :
  NoDup (map fst d) -> NoDup (map fst (fold_left arg_dict_step st d)).
Proof.
  revert d; induction st as [|r st IH]; intros d H; [exact H|].
  cbn [fold_left]. apply IH. now apply arg_dict_step_nodup.
Qed.

Lemma fold_arg_dict_filter (st : list command) (d : dict) :
  fold_left arg_dict_step (filter (is_instruction "ARG") st) d
  = fold_left arg_dict_step st d.
Proof.
  revert d; induction st as [|r st IH]; intros d; [reflexivity|].
  cbn [filter fold_left]. destruct (is_instruction "ARG" r) eqn:E.
  - cbn [fold_left]. apply IH.
  - rewrite IH.
    assert (Hs : arg_dict_step d r = d)
      by (unfold arg_dict_step; now rewrite E).
    now rewrite Hs.
Qed.

Lemma arg_dict_step_ignored (d : dict) (r : command) :
  count_char equals (value r) <> 1 -> arg_dict_step d r = d.
Proof.
  intros H. unfold arg_dict_step.
  destruct (is_instruction "ARG" r); [|reflexivity].
  pose proof (length_split (value r) equals) as Hl.
  destruct (split (value r) equals) as [|k [|v [|x l]]]; try reflexivity.
  cbn [List.length] in Hl. congruence.
Qed.

End ArgDict.

(** X2.  The ARG dictionary is read from the ARG instructions alone, with
    one entry for each name: dropping every other instruction gives the
    same dictionary, and no key occurs twice. *)
Theorem arg_dict_reads_arg_instructions_only (st : list command) :
  get_arg_dict (filter (is_instruction "ARG") st) = get_arg_dict st /\
  NoDup (map fst (get_arg_dict st)).
Proof.
  split.
  - apply fold_arg_dict_filter.
  - apply fold_arg_dict_nodup. constructor.
Qed.

(** X3.  The last ARG instruction with a default decides the value of its
    name: after any instructions, [ARG key=default] (no other "=" in it)
    leaves the name, without the spaces around it, bound to the default,
    without the spaces around it. *)
Theorem last_arg_default_wins (st : list command) (k v c : string) :
  Str.has_char Str.equals k = false ->
  Str.has_char Str.equals v = false ->
  dict_get (get_arg_dict (st ++ [Command "ARG" (k ++ "=" ++ v) c]))
    (Str.strip k Str.space)
  = Some (Str.strip v Str.space).
Proof.
  intros Hk Hv. unfold get_arg_dict. rewrite fold_left_app.
  cbn [fold_left]. unfold arg_dict_step at 1.
  cbn [is_instruction instruction value].
  change ("ARG" =? "ARG")%string with true. cbv iota.
  change (k ++ "=" ++ v) with (k ++ String Str.equals v).
  rewrite (split_one_separator k v Str.equals Hk Hv).
  apply dict_get_set_same.
Qed.

Lemma last_arg_default_wins_witness :
  dict_get
    (get_arg_dict
       ([Command "ARG" "VER=3.8" (line "ARG VER=3.8")]
        ++ [Command "ARG" ("VER " ++ "=" ++ " 3.9") (line "ARG VER = 3.9")]))
    "VER"
  = Some "3.9".
Proof.
  exact (last_arg_default_wins
           [Command "ARG" "VER=3.8" (line "ARG VER=3.8")]
           "VER " " 3.9" (line "ARG VER = 3.9") eq_refl eq_refl).
Defined.

(** X4.  An instruction whose value does not hold exactly one "=" adds
    nothing to the ARG dictionary ([ARG NAME] without a default,
    [ARG A=b=c]): the dictionary is the one of the file without that
    instruction. *)
Theorem arg_without_single_equals_is_ignored
  (st1 st2 : list command) (r : command) :
  count_char Str.equals (value r) <> 1 ->
  get_arg_dict (st1 ++ r :: st2) = get_arg_dict (st1 ++ st2).
Proof.
  intros H. unfold get_arg_dict. rewrite !fold_left_app. cbn [fold_left].
  now rewrite (arg_dict_step_ignored _ r H).
Qed.

Lemma arg_without_single_equals_witness :
  get_arg_dict
    ([Command "ARG" "A=1" (line "ARG A=1")]
     ++ Command "ARG" "B=x=y" (line "ARG B=x=y")
        :: [Command "ARG" "VERSION" (line "ARG VERSION")])
  = get_arg_dict
      ([Command "ARG" "A=1" (line "ARG A=1")]
       ++ [Command "ARG" "VERSION" (line "ARG VERSION")]).
Proof.
  apply (arg_without_single_equals_is_ignored
           [Command "ARG" "A=1" (line "ARG A=1")]
           [Command "ARG" "VERSION" (line "ARG VERSION")]
           (Command "ARG" "B=x=y" (line "ARG B=x=y"))).
  cbn. discriminate.
Defined.

(** ** What the passes keep *)

Section PassFrames.

Import Str.
Local Open Scope list_scope.

Lemma replace_env_all_instruction (d : dict) (st : list command) :
  map instruction (replace_env_all d st) = map instruction st.
Proof.
  unfold replace_env_all. rewrite map_map. apply map_ext.
  intros r. apply instruction_replace_env.
Qed.

Lemma replace_env_dollar_free (d : dict) (r : command) :
  has_char dollar (value r) = false ->
  has_char dollar (content r) = false ->
  replace_env d r = r.
Proof.
  intros Hv Hc. apply command_eq.
  - apply instruction_replace_env.
  - now apply (field_dollar_free value value_item).
  - now apply (field_dollar_free content content_item).
Qed.

Lemma references_nil (r : command) : references [] r = false.
Proof. reflexivity. Qed.

Lemma length_replace_env_all (d : dict) (st : list command) :
  List.length (replace_env_all d st) = List.length st.
Proof. unfold replace_env_all. apply length_map. Qed.

Lemma is_none_structure (d d' : Dockerfile) :
  List.length (structure d') = List.length (structure d) ->
  envs d' = envs d -> prev_env d' = prev_env d -> filepath d' = filepath d ->
  is_none d' = is_none d.
Proof.
  intros Hl He Hp Hf. unfold is_none. rewrite He, Hp, Hf.
  destruct (structure d), (structure d'); try discriminate; reflexivity.
Qed.

End PassFrames.

(** X5.  The ENV pass and the ARG pass keep the instructions in place: the
    sequence of keywords of the structure is what it was, and so are
    [envs], [prev_env] and [filepath]; the ENV pass keeps [parent_images]
    too. *)
Theorem passes_keep_the_instruction_sequence (dfobj : Dockerfile) :
  map instruction (structure (expand_vars dfobj))
  = map instruction (structure dfobj) /\
  map instruction (structure (expand_arg dfobj))
  = map instruction (structure dfobj) /\
  parent_images (expand_vars dfobj) = parent_images dfobj /\
  (envs (expand_vars dfobj), prev_env (expand_vars dfobj),
   filepath (expand_vars dfobj))
  = (envs dfobj, prev_env dfobj, filepath dfobj) /\
  (envs (expand_arg dfobj), prev_env (expand_arg dfobj),
   filepath (expand_arg dfobj))
  = (envs dfobj, prev_env dfobj, filepath dfobj).
Proof.
  refine (conj _ (conj _ (conj _ (conj _ _)))); try reflexivity.
  - rewrite expand_vars_structure. now rewrite !replace_env_all_instruction.
  - rewrite expand_arg_structure. apply replace_env_all_instruction.
Qed.

(** X6.  A variable that no mapping knows is left as it is: a record whose
    value and content hold no [$KEY] or [${KEY}] of [envs] and [prev_env] is
    the same record after [expand_vars], and one that holds none of the ARG
    dictionary is the same record after [expand_arg]. *)
Theorem unreferenced_record_is_untouched
  (dfobj : Dockerfile) (i : nat) (r : command) :
  nth_error (structure dfobj) i = Some r ->
  (references (items (envs dfobj)) r = false ->
   references (items (prev_env dfobj)) r = false ->
   nth_error (structure (expand_vars dfobj)) i = Some r) /\
  (references (get_arg_dict (structure dfobj)) r = false ->
   nth_error (structure (expand_arg dfobj)) i = Some r).
Proof.
  intros Hi. split.
  - intros He Hp. rewrite expand_vars_structure.
    rewrite (nth_error_replace_env_all _ _ _ (replace_env (items (envs dfobj)) r)).
    + now rewrite (replace_env_no_reference _ _ He),
        (replace_env_no_reference _ _ Hp).
    + now apply nth_error_replace_env_all.
  - intros Ha. rewrite expand_arg_structure.
    rewrite (nth_error_replace_env_all _ _ _ r Hi).
    now rewrite (replace_env_no_reference _ _ Ha).
Qed.

Lemma unreferenced_record_witness :
  nth_error (structure (expand_vars scenario_install)) 3
  = Some (Command "RUN" "apt-get install curl" (line "RUN apt-get install curl")) /\
  nth_error (structure (expand_arg scenario_install)) 2
  = Some (Command "ARG" "VERSION" (line "ARG VERSION")).
Proof.
  split.
  - apply (unreferenced_record_is_untouched scenario_install 3); reflexivity.
  - apply (unreferenced_record_is_untouched scenario_install 2); reflexivity.
Defined.

(** X7.  Text without "$" is never changed by a substitution pass,
    whatever the mappings hold: a record whose value and content have no
    "$" is the same record after [expand_vars], after [expand_arg] and
    after the two in a row. *)
Theorem text_without_dollar_is_untouched
  (dfobj : Dockerfile) (i : nat) (r : command) :
  nth_error (structure dfobj) i = Some r ->
  Str.has_char Str.dollar (value r) = false ->
  Str.has_char Str.dollar (content r) = false ->
  nth_error (structure (expand_vars dfobj)) i = Some r /\
  nth_error (structure (expand_arg dfobj)) i = Some r /\
  nth_error (structure (expand_env_then_arg dfobj)) i = Some r.
Proof.
  intros Hi Hv Hc.
  assert (Hvars : nth_error (structure (expand_vars dfobj)) i = Some r).
  { rewrite expand_vars_structure.
    rewrite (nth_error_replace_env_all _ _ _ (replace_env (items (envs dfobj)) r)).
    - now rewrite !(replace_env_dollar_free _ r Hv Hc).
    - now apply nth_error_replace_env_all. }
  assert (Harg : forall d, nth_error (structure d) i = Some r ->
                           nth_error (structure (expand_arg d)) i = Some r).
  { intros d Hd. rewrite expand_arg_structure.
    rewrite (nth_error_replace_env_all _ _ _ r Hd).
    now rewrite (replace_env_dollar_free _ r Hv Hc). }
  refine (conj Hvars (conj (Harg dfobj Hi) _)).
  unfold expand_env_then_arg. now apply Harg.
Qed.

Lemma text_without_dollar_witness :
  nth_error (structure (expand_env_then_arg scenario_env_then_arg)) 0
  = Some (Command "ARG" "VER=3.9" (line "ARG VER=3.9")).
Proof.
  apply (text_without_dollar_is_untouched scenario_env_then_arg 0); reflexivity.
Defined.

(** X8.  The passes do not change whether the object counts as empty:
    [is_none] gives the same answer after [expand_vars], after [expand_arg]
    and after [update_parent_images]. *)
Theorem passes_keep_is_none (dfobj : Dockerfile) :
  is_none (expand_vars dfobj) = is_none dfobj /\
  is_none (expand_arg dfobj) = is_none dfobj /\
  is_none (update_parent_images dfobj) = is_none dfobj.
Proof.
  refine (conj _ (conj _ _)).
  - apply is_none_structure; try reflexivity.
    rewrite expand_vars_structure. now rewrite !length_replace_env_all.
  - apply is_none_structure; try reflexivity.
    rewrite expand_arg_structure. apply length_replace_env_all.
  - reflexivity.
Qed.

(** X9.  After the ARG pass the parent images agree with the FROM lines,
    so the pinning stage that follows never reads a missing entry: a run of
    [expand_from_images] on the result of [expand_arg] returns and leaves
    the parent images on the FROM instructions rank by rank, whatever
    [parent_images] held before the pass. *)
Theorem pinning_after_arg_pass_returns (ext : External) (dfobj : Dockerfile) :
  List.length (parent_images (expand_arg dfobj))
  = count_from (structure (expand_arg dfobj)) /\
  parent_images (expand_arg dfobj)
  = map (fun r => re_split_as_head (value r))
      (filter (is_instruction "FROM") (structure (expand_arg dfobj))) /\
  pinned_in_order (expand_arg dfobj).
Proof.
  assert (Hsync : parent_images (expand_arg dfobj)
                  = map (fun r => re_split_as_head (value r))
                      (filter (is_instruction "FROM")
                         (structure (expand_arg dfobj)))).
  { unfold expand_arg, update_parent_images.
    cbn [parent_images structure set_parent_images set_structure].
    now rewrite update_parent_images_fold. }
  assert (Hlen : List.length (parent_images (expand_arg dfobj))
                 = count_from (structure (expand_arg dfobj))).
  { rewrite Hsync. unfold count_from. apply length_map. }
  refine (conj Hlen (conj Hsync _)).
  now apply expand_from_images_in_order.
Qed.

(** ** Package pinning *)

Section PackagePinning.

Import Str.

Lemma replace_first_absent (s old new : string) :
  contains s old = false -> replace_first s old new = s.
Proof.
  induction s as [|c s IH]; intros H; cbn [contains] in H;
    apply orb_false_iff in H as [H1 H2]; cbn [replace_first]; rewrite H1;
    [reflexivity|].
  now rewrite IH.
Qed.

Lemma replace_first_at (a b old new : string) :
  (forall n, n < String.length a ->
             startswith (drop n (a ++ old ++ b)) old = false) ->
  replace_first (a ++ old ++ b) old new = a ++ new ++ b.
Proof.
  induction a as [|c a IH]; intros H.
  - cbn [append]. destruct (old ++ b) eqn:E.
    + destruct old; [|discriminate E]. destruct b; [|discriminate E].
      reflexivity.
    + rewrite <- E. clear E.
      assert (Hs := startswith_self old b).
      assert (Hd := drop_append old b).
      destruct (old ++ b); cbn [replace_first]; rewrite Hs, Hd; reflexivity.
  - change (String c a ++ old ++ b) with (String c (a ++ old ++ b)).
    cbn [replace_first].
    pose proof (H 0 ltac:(cbn; lia)) as H0. cbn [drop] in H0.
    change (String c a ++ old ++ b) with (String c (a ++ old ++ b)) in H0.
    rewrite H0. cbn [append]. f_equal. apply IH.
    intros n Hn. apply (H (S n)). cbn. lia.
Qed.

End PackagePinning.

(** X10.  [expand_package] pins the first occurrence of the package name
    and no other: when the value is [a + package + b] and the name is not
    found at any place that starts in [a], the new value is
    [a + package + separator + version + b] ([b] as it was, later
    occurrences included) and the content is written anew from it. *)
Theorem expand_package_pins_first_occurrence
  (r : command) (a b package version pinning_separator : string) :
  value r = a ++ package ++ b ->
  (forall n, n < String.length a ->
             Str.startswith (Str.drop n (value r)) package = false) ->
  expand_package r package version pinning_separator
  = {| instruction := instruction r;
       value := a ++ package ++ pinning_separator ++ version ++ b;
       content := instruction r ++ " "
                  ++ (a ++ package ++ pinning_separator ++ version ++ b)
                  ++ Str.nl |}.
Proof.
  intros Hv Hfirst. unfold expand_package. rewrite Hv in *.
  rewrite (replace_first_at a b package _ Hfirst).
  now rewrite !append_assoc.
Qed.

Lemma expand_package_pins_first_occurrence_witness :
  expand_package
    (Command "RUN" "apt-get install curl && curl --version"
       (line "RUN apt-get install curl \ && curl --version"))
    "curl" "7.68" "="
  = Command "RUN" "apt-get install curl=7.68 && curl --version"
      (line "RUN apt-get install curl=7.68 && curl --version").
Proof.
  apply (expand_package_pins_first_occurrence
           (Command "RUN" "apt-get install curl && curl --version"
              (line "RUN apt-get install curl \ && curl --version"))
           "apt-get install " " && curl --version" "curl" "7.68" "=").
  - reflexivity.
  - intros n Hn.
    do 16 (destruct n as [|n]; [reflexivity|]).
    cbn in Hn. lia.
Defined.

(** X11.  When the package name is not in the value, [expand_package]
    leaves the value as it is and still writes the content anew as
    [instruction + " " + value + "\n"], whatever the content was. *)
Theorem expand_package_absent_package
  (r : command) (package version pinning_separator : string) :
  Str.contains (value r) package = false ->
  expand_package r package version pinning_separator
  = {| instruction := instruction r;
       value := value r;
       content := instruction r ++ " " ++ value r ++ Str.nl |}.
Proof.
  intros H. unfold expand_package.
  now rewrite (replace_first_absent _ _ _ H).
Qed.

Lemma expand_package_absent_package_witness :
  expand_package
    (Command "RUN" "apt-get update" (line "RUN   apt-get update"))
    "curl" "7.68" "="
  = Command "RUN" "apt-get update" (line "RUN apt-get update").
Proof.
  apply (expand_package_absent_package
           (Command "RUN" "apt-get update" (line "RUN   apt-get update"))
           "curl" "7.68" "=").
  reflexivity.
Defined.

(** ** When the annotation stage returns *)

Section AnnotationRuns.

Context {ext : External}.
Import Str.
Local Open Scope list_scope.

Lemma filter_app_one (l : list event) (ev : event) :
  filter is_git_query (l ++ [ev])
  = filter is_git_query l ++ (if is_git_query ev then [ev] else []).
Proof. rewrite filter_app. reflexivity. Qed.

(** [find_git_info] on a line that has the tokens it reads. *)
Lemma find_git_info_returns (line' path : string) (s : state) :
  tokens_suffice line' = true ->
  exists s',
    find_git_info line' path s = (Ok (check_git_src path), s') /\
    df s' = df s /\
    filter is_git_query (trace s')
    = filter is_git_query (trace s) ++ [CheckGitSrc path].
Proof.
  unfold tokens_suffice, find_git_info, call_check_git_src, index, bind,
    emit, ret, raise.
  destruct (split line' space) as [|arg0 [|arg1 rest]]; try discriminate.
  cbn [nth_error List.length].
  destruct (startswith arg1 "--chown").
  - destruct rest as [|arg2 rest]; [discriminate|]. intros _.
    cbn [nth_error List.length].
    destruct (Nat.ltb (S (S (S (List.length rest)))) 4);
      eexists; (split; [reflexivity|]); cbn [df trace]; split;
      try reflexivity; rewrite !filter_app_one; cbn [is_git_query];
      now rewrite !app_nil_r.
  - intros _.
    destruct (Nat.ltb (S (S (List.length rest))) 3);
      eexists; (split; [reflexivity|]); cbn [df trace]; split;
      try reflexivity; rewrite !filter_app_one; cbn [is_git_query];
      now rewrite !app_nil_r.
Qed.

(** [find_git_info] on a line that lacks a token: the index error, after
    the log record when the missing token is the third one. *)
Lemma find_git_info_raises (line' path : string) (s : state) :
  tokens_suffice line' = false ->
  exists s',
    find_git_info line' path s = (Raise IndexError, s') /\
    df s' = df s /\
    filter is_git_query (trace s') = filter is_git_query (trace s).
Proof.
  unfold tokens_suffice, find_git_info, call_check_git_src, index, bind,
    emit, ret, raise.
  destruct (split line' space) as [|arg0 [|arg1 rest]];
    try (intros _; eexists; repeat split; reflexivity).
  cbn [nth_error List.length].
  destruct (startswith arg1 "--chown"); [|discriminate].
  destruct rest as [|arg2 rest]; [|discriminate]. intros _.
  cbn. eexists. split; [reflexivity|]. cbn [df trace]. split; [reflexivity|].
  rewrite filter_app_one. cbn [is_git_query]. now rewrite app_nil_r.
Qed.

Lemma annotate_add_returns (path : string) (i : nat) (r : command) (s : state) :
  nth_error (structure (df s)) i = Some r ->
  add_line_suffices r = true ->
  exists s',
    annotate_add path i r s = (Ok tt, s') /\
    df s' = set_structure (df s)
              (list_update (structure (df s)) i (annotated path r)) /\
    filter is_git_query (trace s')
    = filter is_git_query (trace s)
      ++ (if is_instruction "ADD" r then [CheckGitSrc path] else []).
Proof.
  intros Hi Hok. unfold add_line_suffices in Hok.
  destruct (is_instruction "ADD" r) eqn:Hadd.
  - cbn in Hok.
    destruct (find_git_info_returns (content r) path s Hok)
      as (s1 & Hgit & Hdf & Htr).
    assert (Hi1 : nth_error (structure (df s1)) i = Some r) by now rewrite Hdf.
    assert (Hlt : i < List.length (structure (df s1)))
      by (apply nth_error_Some; congruence).
    eexists. split.
    + unfold annotate_add. rewrite Hadd.
      rewrite (bind_ok _ _ _ _ _ Hgit).
      rewrite (bind_ok _ _ _ _ _ (assign_field_ok _ _ _ s1 Hi1)).
      match goal with
      | |- assign_field i ?f2 ?s2 = _ =>
          rewrite (assign_field_ok i f2 _ s2 (nth_error_list_update _ _ _ Hlt))
      end.
      reflexivity.
    + cbn [df structure set_structure trace]. split; [|exact Htr].
      rewrite list_update_twice, Hdf. unfold annotated. rewrite Hadd.
      reflexivity.
  - exists s. unfold annotate_add, annotated. rewrite Hadd.
    split; [reflexivity|].
    rewrite (list_update_same _ _ _ Hi), set_structure_same, app_nil_r.
    now split.
Qed.

Lemma annotate_add_raises (path : string) (i : nat) (r : command) (s : state) :
  add_line_suffices r = false ->
  exists s',
    annotate_add path i r s = (Raise IndexError, s') /\
    df s' = df s /\
    filter is_git_query (trace s') = filter is_git_query (trace s).
Proof.
  intros Hbad. unfold add_line_suffices in Hbad.
  apply orb_false_iff in Hbad as [Hadd Htok].
  apply negb_false_iff in Hadd.
  destruct (find_git_info_raises (content r) path s Htok)
    as (s1 & Hgit & Hdf & Htr).
  exists s1. unfold annotate_add. rewrite Hadd.
  now rewrite (bind_raise _ _ _ _ _ Hgit).
Qed.

(** The loop on records that all have their tokens. *)
Lemma annotate_loop_returns (path : string) (suffix pre : list command) (s : state) :
  structure (df s) = pre ++ suffix ->
  forallb add_line_suffices suffix = true ->
  exists s',
    for_each (enumerate_from (List.length pre) suffix)
      (fun '(i, command_dict) => annotate_add path i command_dict) s
    = (Ok tt, s') /\
    df s' = set_structure (df s) (pre ++ map (annotated path) suffix) /\
    filter is_git_query (trace s')
    = filter is_git_query (trace s)
      ++ repeat (CheckGitSrc path)
           (List.length (filter (is_instruction "ADD") suffix)).
Proof.
  revert pre s; induction suffix as [|r suffix IH]; intros pre s Hs Hall.
  - exists s. cbn. rewrite !app_nil_r in *.
    now rewrite <- Hs, set_structure_same.
  - cbn [forallb] in Hall. apply andb_true_iff in Hall as [Hr Hrest].
    assert (Hi : nth_error (structure (df s)) (List.length pre) = Some r)
      by (rewrite Hs; apply nth_error_middle).
    destruct (annotate_add_returns path _ r s Hi Hr) as (s1 & Hrun & Hdf & Htr).
    rewrite Hs, list_update_middle in Hdf.
    destruct (IH (pre ++ [annotated path r]) s1) as (s' & Hloop & Hdf' & Htr').
    + rewrite Hdf. cbn [structure set_structure]. apply app_cons_assoc.
    + exact Hrest.
    + exists s'. split; [|split].
      * cbn [enumerate_from for_each].
        rewrite (bind_ok _ _ _ _ _ Hrun).
        rewrite length_snoc in Hloop. exact Hloop.
      * rewrite Hdf', Hdf.
        cbn [map set_structure structure envs prev_env filepath parent_images].
        now rewrite <- app_assoc.
      * rewrite Htr', Htr. cbn [filter].
        destruct (is_instruction "ADD" r); cbn [List.length repeat];
          rewrite <- app_assoc; reflexivity.
Qed.

(** The loop up to the first record that lacks a token. *)
Lemma annotate_loop_raises (path : string) (good : list command) (bad : command)
      (rest pre : list command) (s : state) :
  structure (df s) = pre ++ good ++ bad :: rest ->
  forallb add_line_suffices good = true ->
  add_line_suffices bad = false ->
  exists s',
    for_each (enumerate_from (List.length pre) (good ++ bad :: rest))
      (fun '(i, command_dict) => annotate_add path i command_dict) s
    = (Raise IndexError, s') /\
    df s' = set_structure (df s)
              (pre ++ map (annotated path) good ++ bad :: rest).
Proof.
  revert pre s; induction good as [|r good IH]; intros pre s Hs Hall Hbad.
  - cbn [app map] in *.
    destruct (annotate_add_raises path (List.length pre) bad s Hbad)
      as (s1 & Hrun & Hdf & _).
    exists s1. cbn [enumerate_from for_each].
    rewrite (bind_raise _ _ _ _ _ Hrun). split; [reflexivity|].
    now rewrite Hdf, <- Hs, set_structure_same.
  - cbn [forallb] in Hall. apply andb_true_iff in Hall as [Hr Hrest].
    cbn [app] in Hs.
    assert (Hi : nth_error (structure (df s)) (List.length pre) = Some r)
      by (rewrite Hs; apply nth_error_middle).
    destruct (annotate_add_returns path _ r s Hi Hr) as (s1 & Hrun & Hdf & _).
    rewrite Hs, list_update_middle in Hdf.
    destruct (IH (pre ++ [annotated path r]) s1) as (s' & Hloop & Hdf').
    + rewrite Hdf. cbn [structure set_structure]. apply app_cons_assoc.
    + exact Hrest.
    + exact Hbad.
    + exists s'. split.
      * cbn [app enumerate_from for_each].
        rewrite (bind_ok _ _ _ _ _ Hrun).
        rewrite length_snoc in Hloop. exact Hloop.
      * rewrite Hdf', Hdf.
        cbn [map app set_structure structure envs prev_env filepath
               parent_images].
        now rewrite <- app_assoc.
Qed.

End AnnotationRuns.

Section AddLineTokens.

Import Str.
Local Open Scope list_scope.

Lemma split_after_first_piece (k v : string) (c : ascii) :
  has_char c k = false ->
  split (k ++ String c v) c = k :: split v c.
Proof.
  intros Hk. induction k as [|a k IH].
  - cbn [append split]. now rewrite Ascii.eqb_refl.
  - cbn [has_char] in Hk. apply orb_false_iff in Hk as [Ha Hk].
    change (String a k ++ String c v)%string
      with (String a (k ++ String c v)%string).
    cbn [split]. rewrite Ha, (IH Hk). reflexivity.
Qed.

Lemma split_head_startswith (p s : string) (c : ascii) (w : string) (ws : list string) :
  has_char c p = false ->
  split s c = w :: ws ->
  startswith w p = startswith s p.
Proof.
  revert s w ws; induction p as [|a p IH]; intros s w ws Hp Hs; [reflexivity|].
  cbn [has_char] in Hp. apply orb_false_iff in Hp as [Ha Hp].
  destruct s as [|b s].
  - cbn in Hs. injection Hs as <- <-. reflexivity.
  - cbn [split] in Hs. destruct (Ascii.eqb_spec b c) as [->|Hne].
    + injection Hs as <- <-. cbn [startswith]. now rewrite Ha.
    + destruct (split s c) as [|w' ws'] eqn:E.
      * pose proof (length_split s c) as Hl. rewrite E in Hl. discriminate.
      * injection Hs as <- <-. cbn [startswith]. f_equal.
        now apply (IH s w' ws').
Qed.

Lemma split_with_separator (s : string) (c : ascii) :
  has_char c s = true -> exists w x ws, split s c = w :: x :: ws.
Proof.
  intros H. pose proof (length_split s c) as Hl.
  assert (Hc : count_char c s <> 0).
  { clear Hl. induction s as [|a s IH]; [discriminate|].
    cbn [has_char count_char] in *. destruct (Ascii.eqb a c); [lia|].
    cbn in H. specialize (IH H). lia. }
  destruct (split s c) as [|w [|x ws]]; cbn in Hl; try lia.
  now exists w, x, ws.
Qed.

End AddLineTokens.

(** X12.  [find_git_info] returns exactly on the lines that have the
    tokens it reads (a second token, and a third one when the second
    starts with [--chown]): there it returns the answer of [check_git_src]
    for the Dockerfile path, after one call of it; on any other line it
    raises the index error without calling it.  It never writes to the
    object. *)
Theorem find_git_info_needs_its_tokens
  (ext : External) (line' path : string) (s : state) :
  (tokens_suffice line' = true ->
   exists s',
     find_git_info line' path s = (Ok (check_git_src path), s') /\
     df s' = df s /\
     filter is_git_query (trace s')
     = (filter is_git_query (trace s) ++ [CheckGitSrc path])%list) /\
  (tokens_suffice line' = false ->
   exists s',
     find_git_info line' path s = (Raise IndexError, s') /\
     df s' = df s /\
     filter is_git_query (trace s') = filter is_git_query (trace s)).
Proof.
  split.
  - apply find_git_info_returns.
  - apply find_git_info_raises.
Qed.

Lemma find_git_info_needs_its_tokens_witness :
  (exists s',
      @find_git_info no_registry (line "ADD --chown=user:group ./src") "Dockerfile"
        {| df := scenario_add_src_only; trace := [] |}
      = (Ok "repo@abc123", s')) /\
  (exists s',
      @find_git_info no_registry (line "ADD") "Dockerfile"
        {| df := scenario_add_src_only; trace := [] |}
      = (Raise IndexError, s')).
Proof.
  split.
  - destruct (find_git_info_needs_its_tokens no_registry
                (line "ADD --chown=user:group ./src") "Dockerfile"
                {| df := scenario_add_src_only; trace := [] |}) as [H _].
    destruct (H eq_refl) as (s' & Hs & _). now exists s'.
  - destruct (find_git_info_needs_its_tokens no_registry
                (line "ADD") "Dockerfile"
                {| df := scenario_add_src_only; trace := [] |}) as [_ H].
    destruct (H eq_refl) as (s' & Hs & _). now exists s'.
Defined.

(** X13.  For an ADD record whose content is
    [instruction + " " + value + "\n"], the line has the tokens that
    [find_git_info] reads exactly when the value does not start with
    [--chown] or holds a space: the only such line that raises is the
    option with nothing after it. *)
Theorem consistent_add_line_tokens (r : command) :
  content_consistent r ->
  instruction r = "ADD" ->
  tokens_suffice (content r)
  = negb (Str.startswith (value r) "--chown")
    || Str.has_char Str.space (value r).
Proof.
  intros Hc Hi. unfold content_consistent in Hc. rewrite Hc, Hi.
  unfold tokens_suffice.
  change ("ADD" ++ " " ++ value r ++ Str.nl)
    with ("ADD" ++ String Str.space (value r ++ Str.nl)).
  rewrite (split_after_first_piece "ADD" (value r ++ Str.nl) Str.space eq_refl).
  assert (Hsp : Str.has_char Str.space (value r ++ Str.nl)
                = Str.has_char Str.space (value r)).
  { rewrite has_char_append. cbn. unfold Str.space, Str.newline.
    change (Ascii.eqb "010" " ") with false. now rewrite !orb_false_r. }
  destruct (Str.split (value r ++ Str.nl) Str.space) as [|arg1 rest] eqn:E.
  - pose proof (length_split (value r ++ Str.nl) Str.space) as Hl.
    rewrite E in Hl. discriminate.
  - rewrite (split_head_startswith "--chown" (value r ++ Str.nl) Str.space
               arg1 rest eq_refl E).
    rewrite (startswith_before_newline "--chown" (value r) eq_refl).
    destruct (Str.startswith (value r) "--chown"); [|reflexivity].
    cbn [negb orb]. rewrite <- Hsp.
    destruct (Str.has_char Str.space (value r ++ Str.nl)) eqn:Hh.
    + destruct (split_with_separator _ _ Hh) as (w & x & ws & Hw).
      rewrite E in Hw. injection Hw as _ ->. reflexivity.
    + rewrite (split_no_separator _ _ Hh) in E. injection E as _ <-.
      reflexivity.
Qed.

Lemma consistent_add_line_tokens_witness :
  tokens_suffice (line "ADD --chown=user:group ./src /dst") = true /\
  tokens_suffice (line "ADD --chown=user:group") = false.
Proof.
  split.
  - exact (consistent_add_line_tokens
             (Command "ADD" "--chown=user:group ./src /dst"
                (line "ADD --chown=user:group ./src /dst")) eq_refl eq_refl).
  - exact (consistent_add_line_tokens
             (Command "ADD" "--chown=user:group"
                (line "ADD --chown=user:group")) eq_refl eq_refl).
Defined.

(** X14.  When every ADD line has the tokens that [find_git_info] reads,
    [expand_add_command] returns: every ADD record has [" # " + comment]
    appended to its value and put before the line feed of its content, the
    other records and the other fields of the object are as they were, and
    [check_git_src] was called once for each ADD instruction, with the path
    of the Dockerfile. *)
Theorem expand_add_command_returns (ext : External) (dfobj : Dockerfile) :
  forallb add_line_suffices (structure dfobj) = true ->
  exists s',
    run expand_add_command dfobj = (Ok tt, s') /\
    df s' = set_structure dfobj
              (map (annotated (filepath dfobj)) (structure dfobj)) /\
    filter is_git_query (trace s')
    = repeat (CheckGitSrc (filepath dfobj))
        (List.length (filter (is_instruction "ADD") (structure dfobj))).
Proof.
  intros Hall. unfold run, expand_add_command.
  rewrite (bind_ok get_df _ _ _ _ eq_refl). cbn [df].
  unfold enumerate. change 0 with (@List.length command []).
  destruct (annotate_loop_returns (filepath dfobj) (structure dfobj) []
              {| df := dfobj; trace := [] |} eq_refl Hall)
    as (s' & Hrun & Hdf & Htr).
  exists s'. repeat split; assumption.
Qed.

Lemma expand_add_command_returns_witness :
  exists s',
    @run ubuntu_registry unit expand_add_command scenario_install = (Ok tt, s') /\
    map content (structure (df s'))
    = [line "# base image"; line "FROM ubuntu:20.04"; line "ARG VERSION";
       line "RUN apt-get install curl"; line "ADD ./src /dst # repo@abc123"] /\
    filter is_git_query (trace s') = [CheckGitSrc "Dockerfile"].
Proof.
  destruct (expand_add_command_returns ubuntu_registry scenario_install eq_refl)
    as (s' & Hrun & Hdf & Htr).
  exists s'. split; [exact Hrun|]. split; [now rewrite Hdf | exact Htr].
Defined.

(** X15.  When an ADD line lacks a token, [expand_add_command] raises the
    index error at the first such line, and what it did before stays: the
    ADD records before that line are annotated, that line and everything
    after it are as they were. *)
Theorem expand_add_command_raises_at_first_short_line
  (ext : External) (dfobj : Dockerfile)
  (good : list command) (bad : command) (rest : list command) :
  structure dfobj = (good ++ bad :: rest)%list ->
  forallb add_line_suffices good = true ->
  add_line_suffices bad = false ->
  exists s',
    run expand_add_command dfobj = (Raise IndexError, s') /\
    df s' = set_structure dfobj
              (map (annotated (filepath dfobj)) good ++ bad :: rest)%list.
Proof.
  intros Hs Hgood Hbad. unfold run, expand_add_command.
  rewrite (bind_ok get_df _ _ _ _ eq_refl). cbn [df].
  unfold enumerate. change 0 with (@List.length command []).
  rewrite Hs.
  destruct (annotate_loop_raises (filepath dfobj) good bad rest []
              {| df := dfobj; trace := [] |} Hs Hgood Hbad)
    as (s' & Hrun & Hdf).
  exists s'. split; assumption.
Qed.

Lemma expand_add_command_raises_witness :
  exists s',
    @run ubuntu_registry unit expand_add_command scenario_second_add_short
    = (Raise IndexError, s') /\
    map content (structure (df s'))
    = [line "ADD ./src /dst # repo@abc123"; line "ADD --chown=user:group"].
Proof.
  destruct (expand_add_command_raises_at_first_short_line
              ubuntu_registry scenario_second_add_short
              [Command "ADD" "./src /dst" (line "ADD ./src /dst")]
              (Command "ADD" "--chown=user:group" (line "ADD --chown=user:group"))
              [] eq_refl eq_refl eq_refl)
    as (s' & Hrun & Hdf).
  exists s'. split; [exact Hrun | now rewrite Hdf].
Defined.

(** ** When the pinning stage returns *)

Section PinningBounds.

Context {ext : External}.
Local Open Scope list_scope.

(** The second loop reads an entry that is not there as soon as the FROM
    records that are left outnumber the entries that are left. *)
Lemma update_structure_raises (suffix pre : list command) (c : nat) (s : state) :
  structure (df s) = pre ++ suffix ->
  c <= List.length (parent_images (df s)) ->
  List.length (parent_images (df s)) < count_from suffix + c ->
  exists s', update_structure (enumerate_from (List.length pre) suffix) c s
             = (Raise IndexError, s').
Proof.
  revert pre c s; induction suffix as [|r suffix IH]; intros pre c s Hs Hc Hlt.
  - cbn in Hlt. lia.
  - cbn [enumerate_from update_structure].
    assert (Hr : nth_error (structure (df s)) (List.length pre) = Some r)
      by (rewrite Hs; apply nth_error_middle).
    unfold count_from in Hlt. cbn [filter] in Hlt.
    destruct (is_instruction "FROM" r) eqn:E.
    + cbn [List.length] in Hlt.
      destruct (nth_error (parent_images (df s)) c) as [parent|] eqn:Hn.
      * assert (Hc' : c < List.length (parent_images (df s)))
          by (apply nth_error_Some; congruence).
        rewrite (bind_ok get_df _ s s (df s) eq_refl).
        rewrite (bind_ok _ _ _ _ _ (index_ok _ _ _ s Hn)).
        rewrite (bind_ok _ _ _ _ _ (assign_field_ok _ _ _ s Hr)).
        match goal with
        | |- exists _, bind get_df _ ?s1 = _ =>
            rewrite (bind_ok get_df _ s1 s1 (df s1) eq_refl)
        end.
        cbn [df parent_images set_structure].
        match goal with
        | |- exists _, bind _ _ ?s1 = _ =>
            rewrite (bind_ok _ _ _ _ _ (index_ok _ _ _ s1 Hn))
        end.
        rewrite Hs, list_update_middle.
        match goal with
        | |- exists _, bind (assign_field _ ?f) _ ?s1 = _ =>
            rewrite (bind_ok _ _ _ _ _
                       (assign_field_ok (List.length pre) f _ s1
                          (nth_error_middle pre suffix _)))
        end.
        cbn [df structure set_structure trace].
        rewrite list_update_middle.
        unfold with_value, with_content. cbn [instruction value content].
        rewrite <- (length_snoc pre
          {| instruction := instruction r; value := parent;
             content := (instruction r ++ " " ++ parent ++ Str.nl)%string |}).
        apply (IH (pre ++ [{| instruction := instruction r; value := parent;
                              content := (instruction r ++ " " ++ parent
                                          ++ Str.nl)%string |}]) (c + 1)).
        -- cbn [df structure set_structure]. apply app_cons_assoc.
        -- cbn [df parent_images set_structure]. lia.
        -- cbn [df parent_images set_structure]. unfold count_from. lia.
      * exists s.
        rewrite (bind_ok get_df _ s s (df s) eq_refl).
        unfold index. rewrite Hn. reflexivity.
    + rewrite <- (length_snoc pre r). apply (IH (pre ++ [r]) c s).
      * rewrite Hs. apply app_cons_assoc.
      * exact Hc.
      * exact Hlt.
Qed.

Lemma pinned_entry_found (ref : string) (image : Image) :
  unpinned (parse_image_string ref) = true ->
  get_image (lookup_key (parse_image_string ref)) = Some image ->
  pinned_entry ref = get_image_digest image /\
  pin_events ref = [GetImage (lookup_key (parse_image_string ref));
                    GetImageDigest image].
Proof.
  intros Hun Hget. unfold pinned_entry, pin_events.
  now rewrite Hun, Hget.
Qed.

End PinningBounds.

(** X16.  When the lookup of an unpinned parent image succeeds (and
    [parent_images] has an entry for every FROM instruction),
    [expand_from_images] returns, the entry becomes the string that
    [get_image_digest] gives for the image found, and the FROM instruction
    at the same rank gets that string as its value and the keyword, a space,
    the string and a line feed as its content.  The image is looked up under
    [name:tag], with the tag [latest] when the reference has none. *)
Theorem successful_lookup_pins_entry_and_from_line
  (ext : External) (dfobj : Dockerfile) (i : nat) (ref : string) (image : Image) :
  count_from (structure dfobj) <= List.length (parent_images dfobj) ->
  nth_error (parent_images dfobj) i = Some ref ->
  unpinned (parse_image_string ref) = true ->
  get_image (lookup_key (parse_image_string ref)) = Some image ->
  exists s',
    run expand_from_images dfobj = (Ok tt, s') /\
    nth_error (parent_images (df s')) i = Some (get_image_digest image) /\
    In (GetImage (lookup_key (parse_image_string ref))) (trace s') /\
    In (GetImageDigest image) (trace s') /\
    (tag (parse_image_string ref) = "" ->
     In (GetImage (name (parse_image_string ref) ++ ":latest")) (trace s')) /\
    (forall r,
        nth_error (filter (is_instruction "FROM") (structure dfobj)) i = Some r ->
        nth_error (filter (is_instruction "FROM") (structure (df s'))) i
        = Some {| instruction := instruction r;
                  value := get_image_digest image;
                  content := instruction r ++ " " ++ get_image_digest image
                             ++ Str.nl |}).
Proof.
  intros Hc Hi Hun Hget.
  destruct (pinned_entry_found ref image Hun Hget) as [Hentry Hev].
  eexists. split; [apply (expand_from_images_ok dfobj Hc)|].
  cbn [df trace structure parent_images set_structure set_parent_images].
  assert (Hin : In ref (parent_images dfobj)) by (eapply nth_error_In; eauto).
  assert (Hi' : nth_error (map pinned_entry (parent_images dfobj)) i
                = Some (get_image_digest image)).
  { rewrite nth_error_map, Hi. cbn. now rewrite Hentry. }
  assert (Hcall : In (GetImage (lookup_key (parse_image_string ref)))
                    (flat_map pin_events (parent_images dfobj))).
  { apply in_flat_map. exists ref. split; [exact Hin|]. rewrite Hev. now left. }
  refine (conj Hi' (conj Hcall (conj _ (conj _ _)))).
  - apply in_flat_map. exists ref. split; [exact Hin|]. rewrite Hev.
    right; left. reflexivity.
  - intros Htag. unfold lookup_key in Hcall. rewrite Htag in Hcall.
    exact Hcall.
  - intros r Hr.
    rewrite rewrite_from_records by (rewrite length_map; lia).
    cbn [skipn].
    rewrite nth_error_map, (nth_error_combine _ _ _ _ _ Hr Hi'). reflexivity.
Qed.

Lemma successful_lookup_witness :
  exists s',
    @run ubuntu_registry unit expand_from_images scenario_install = (Ok tt, s') /\
    parent_images (df s') = ["ubuntu@sha256:abcd"] /\
    nth_error (structure (df s')) 1
    = Some (Command "FROM" "ubuntu@sha256:abcd" (line "FROM ubuntu@sha256:abcd")).
Proof.
  destruct (@successful_lookup_pins_entry_and_from_line
              ubuntu_registry scenario_install 0 "ubuntu:20.04"
              "ubuntu@sha256:abcd")
    as (s' & Hrun & _); [apply Nat.leb_le; reflexivity | reflexivity ..|].
  exists s'. split; [exact Hrun|].
  vm_compute in Hrun. injection Hrun as <-. split; reflexivity.
Defined.

(** X17.  [expand_from_images] returns exactly when [parent_images] has an
    entry for every FROM instruction; with fewer entries it raises the index
    error, after the lookups: the parent images are pinned and the trace
    holds the events of every entry all the same. *)
Theorem expand_from_images_needs_an_entry_per_from
  (ext : External) (dfobj : Dockerfile) :
  (count_from (structure dfobj) <= List.length (parent_images dfobj) ->
   fst (run expand_from_images dfobj) = Ok tt) /\
  (List.length (parent_images dfobj) < count_from (structure dfobj) ->
   fst (run expand_from_images dfobj) = Raise IndexError /\
   parent_images (df (snd (run expand_from_images dfobj)))
   = map pinned_entry (parent_images dfobj) /\
   trace (snd (run expand_from_images dfobj))
   = flat_map pin_events (parent_images dfobj)).
Proof.
  split.
  - intros Hc. now rewrite (expand_from_images_ok dfobj Hc).
  - intros Hlt.
    assert (Hraise : exists s', run expand_from_images dfobj = (Raise IndexError, s')).
    { unfold run, expand_from_images.
      rewrite (bind_ok get_df _ _ _ _ eq_refl).
      cbn [df]. unfold parse_from_image, enumerate.
      change 0 with (@List.length string []) at 1.
      rewrite (bind_ok _ _ _ _ _
                 (pin_loop_spec (parent_images dfobj) []
                    {| df := dfobj; trace := [] |} eq_refl)).
      rewrite (bind_ok get_df _ _ _ _ eq_refl).
      cbn [df trace structure set_parent_images app].
      change 0 with (@List.length command []) at 1.
      apply update_structure_raises.
      - reflexivity.
      - lia.
      - cbn [df parent_images set_parent_images]. rewrite length_map. lia. }
    destruct Hraise as (s' & Hrun).
    destruct (expand_from_images_frame dfobj _ _ Hrun) as [Hp Ht].
    rewrite Hrun. cbn [fst snd]. now split.
Qed.

Lemma expand_from_images_needs_an_entry_witness :
  fst (@run ubuntu_registry unit expand_from_images scenario_two_stage) = Ok tt /\
  fst (@run ubuntu_registry unit expand_from_images scenario_missing_parent)
  = Raise IndexError /\
  parent_images
    (df (snd (@run ubuntu_registry unit expand_from_images scenario_missing_parent)))
  = ["ubuntu@sha256:abcd"].
Proof.
  split.
  - apply (expand_from_images_needs_an_entry_per_from
             ubuntu_registry scenario_two_stage).
    apply Nat.leb_le. reflexivity.
  - destruct (expand_from_images_needs_an_entry_per_from
                ubuntu_registry scenario_missing_parent) as [_ H].
    destruct (H ltac:(apply Nat.ltb_lt; reflexivity)) as (Hr & Hp & _).
    split; [exact Hr | exact Hp].
Defined.

(** ** The locked Dockerfile *)

Section Locked.

Context {ext : External}.
Local Open Scope list_scope.

Lemma expand_add_command_returns_from (s : state) :
  forallb add_line_suffices (structure (df s)) = true ->
  exists s',
    expand_add_command s = (Ok tt, s') /\
    df s' = set_structure (df s)
              (map (annotated (filepath (df s))) (structure (df s))).
Proof.
  intros Hall. unfold expand_add_command.
  rewrite (bind_ok get_df _ _ _ _ eq_refl).
  unfold enumerate. change 0 with (@List.length command []).
  destruct (annotate_loop_returns (filepath (df s)) (structure (df s)) []
              s eq_refl Hall) as (s' & Hrun & Hdf & _).
  exists s'. now split.
Qed.

Lemma rewrite_from_add_lines (pis : list string) (c : nat) (st : list command) :
  forallb add_line_suffices st = true ->
  forallb add_line_suffices (rewrite_from pis c st) = true.
Proof.
  revert c; induction st as [|r st IH]; intros c H; [reflexivity|].
  cbn [forallb] in H. apply andb_true_iff in H as [Hr Hst].
  cbn [rewrite_from]. destruct (is_instruction "FROM" r) eqn:E.
  - destruct (nth_error pis c).
    + cbn [forallb]. rewrite (IH _ Hst), andb_true_r.
      unfold add_line_suffices, is_instruction. cbn [instruction].
      apply is_from_instruction in E. rewrite E. reflexivity.
    + cbn [forallb]. now rewrite Hr, Hst.
  - cbn [forallb]. now rewrite Hr, IH.
Qed.

Lemma concat_cons (x : string) (xs : list string) :
  String.concat "" (x :: xs) = (x ++ String.concat "" xs)%string.
Proof.
  destruct xs as [|y xs]; cbn [String.concat].
  - now rewrite append_empty_r.
  - reflexivity.
Qed.

Lemma fold_left_contents (st : list command) (acc : string) :
  fold_left (fun dfile command_dict => (dfile ++ content command_dict)%string)
    st acc
  = (acc ++ String.concat "" (map content st))%string.
Proof.
  revert acc; induction st as [|r st IH]; intros acc.
  - cbn. now rewrite append_empty_r.
  - cbn [fold_left map]. rewrite IH, concat_cons. now rewrite append_assoc.
Qed.

Lemma instruction_annotated (path : string) (r : command) :
  instruction (annotated path r) = instruction r.
Proof. unfold annotated. now destruct (is_instruction "ADD" r). Qed.

End Locked.

(** X18.  [create_locked_dockerfile] returns when [parent_images] has an
    entry for every FROM instruction and every ADD line has the tokens that
    [find_git_info] reads.  The text it returns is the contents of the final
    structure one after the other, in order; the final structure has the
    same sequence of keywords, its FROM records are rewritten from the
    pinned parent images and its ADD records annotated after that, and a
    record that is neither is as it was. *)
Theorem create_locked_dockerfile_returns (ext : External) (dfobj : Dockerfile) :
  count_from (structure dfobj) <= List.length (parent_images dfobj) ->
  forallb add_line_suffices (structure dfobj) = true ->
  exists text s',
    run create_locked_dockerfile dfobj = (Ok text, s') /\
    text = String.concat "" (map content (structure (df s'))) /\
    structure (df s')
    = map (annotated (filepath dfobj))
        (rewrite_from (map pinned_entry (parent_images dfobj)) 0
           (structure dfobj)) /\
    map instruction (structure (df s')) = map instruction (structure dfobj) /\
    (forall j r,
        nth_error (structure dfobj) j = Some r ->
        is_instruction "FROM" r = false ->
        is_instruction "ADD" r = false ->
        nth_error (structure (df s')) j = Some r).
Proof.
  intros Hc Hall.
  pose proof (expand_from_images_ok dfobj Hc) as Hpin. unfold run in Hpin.
  match type of Hpin with
  | _ = (_, ?s1) =>
      destruct (expand_add_command_returns_from s1) as (s2 & Hadd & Hdf);
        [cbn [df structure set_structure]; now apply rewrite_from_add_lines|]
  end.
  cbn [df structure set_structure filepath set_parent_images] in Hdf.
  eexists. exists s2. split.
  - unfold run, create_locked_dockerfile.
    rewrite (bind_ok _ _ _ _ _ Hpin).
    rewrite (bind_ok _ _ _ _ _ Hadd).
    rewrite (bind_ok get_df _ _ _ _ eq_refl).
    unfold ret. rewrite fold_left_contents. reflexivity.
  - rewrite Hdf. cbn [structure set_structure].
    refine (conj eq_refl (conj eq_refl (conj _ _))).
    + rewrite map_map.
      rewrite <- (rewrite_from_instruction
                    (map pinned_entry (parent_images dfobj)) 0 (structure dfobj)).
      apply map_ext. intros r. apply instruction_annotated.
    + intros j r Hj Hfrom Hadd'.
      rewrite nth_error_map.
      rewrite (rewrite_from_other _ 0 j _ r Hj Hfrom). cbn [option_map].
      unfold annotated. now rewrite Hadd'.
Qed.

Lemma create_locked_dockerfile_returns_witness :
  exists text s',
    @run ubuntu_registry string create_locked_dockerfile scenario_install
    = (Ok text, s') /\
    text = String.concat ""
             [line "# base image"; line "FROM ubuntu@sha256:abcd";
              line "ARG VERSION"; line "RUN apt-get install curl";
              line "ADD ./src /dst # repo@abc123"].
Proof.
  destruct (create_locked_dockerfile_returns ubuntu_registry scenario_install)
    as (text & s' & Hrun & Htext & Hst & _);
    [apply Nat.leb_le; reflexivity | reflexivity |].
  exists text, s'. split; [exact Hrun|].
  rewrite Htext, Hst. reflexivity.
Defined.

(** ** The command listing *)

Section CommandList.

Local Open Scope list_scope.

Lemma get_command_list_fold (st : list command) (acc : list string) :
  fold_left get_command_list_step st acc
  = acc ++ map (fun r => rstrip_space (content r))
             (filter (fun r => negb (is_instruction "COMMENT" r)) st).
Proof.
  revert acc; induction st as [|r st IH]; intros acc; cbn [fold_left filter].
  - now rewrite app_nil_r.
  - rewrite IH. unfold get_command_list_step.
    destruct (negb (is_instruction "COMMENT" r)); [|reflexivity].
    cbn [map]. now rewrite <- app_assoc.
Qed.

Lemma rstrip_space_no_trailing (s : string) :
  ends_with_space (rstrip_space s) = false.
Proof.
  induction s as [|a s IH]; [reflexivity|].
  cbn [rstrip_space]. destruct (rstrip_space s) as [|b t].
  - destruct (isspace a) eqn:E; [reflexivity|]. cbn. exact E.
  - exact IH.
Qed.

Lemma rstrip_space_fixed (s : string) :
  ends_with_space s = false -> s <> EmptyString -> rstrip_space s = s.
Proof.
  induction s as [|a s IH]; intros H Hne; [congruence|].
  destruct s as [|b s].
  - cbn in H. cbn. now rewrite H.
  - change (ends_with_space (String a (String b s)))
      with (ends_with_space (String b s)) in H.
    cbn [rstrip_space] in *. rewrite (IH H ltac:(discriminate)). reflexivity.
Qed.

Lemma rstrip_space_newline (s : string) :
  rstrip_space (s ++ Str.nl) = rstrip_space s.
Proof.
  induction s as [|a s IH]; [reflexivity|].
  change (String a s ++ Str.nl)%string with (String a (s ++ Str.nl)%string).
  cbn [rstrip_space]. now rewrite IH.
Qed.

Lemma ends_with_space_append (a b : string) :
  b <> EmptyString -> ends_with_space (a ++ b) = ends_with_space b.
Proof.
  intros Hb. induction a as [|x a IH]; [reflexivity|].
  cbn [append]. destruct (a ++ b)%string eqn:E.
  - destruct a; cbn in E; [congruence | discriminate].
  - cbn [ends_with_space]. exact IH.
Qed.

End CommandList.

(** X19.  [get_command_list] gives one entry for each instruction that is
    not a comment, in order, the content without the white space at its
    end; no entry ends with white space. *)
Theorem get_command_list_drops_comments_and_line_ends (st : list command) :
  get_command_list st
  = map (fun r => rstrip_space (content r))
      (filter (fun r => negb (is_instruction "COMMENT" r)) st) /\
  List.length (get_command_list st)
  = List.length (filter (fun r => negb (is_instruction "COMMENT" r)) st) /\
  Forall (fun cmd => ends_with_space cmd = false) (get_command_list st).
Proof.
  assert (H : get_command_list st
              = map (fun r => rstrip_space (content r))
                  (filter (fun r => negb (is_instruction "COMMENT" r)) st))
    by (unfold get_command_list; now rewrite get_command_list_fold).
  refine (conj H (conj _ _)).
  - rewrite H. apply length_map.
  - rewrite H. apply Forall_forall. intros cmd Hin.
    apply in_map_iff in Hin as (r & <- & _). apply rstrip_space_no_trailing.
Qed.

(** X20.  For records whose content is [instruction + " " + value + "\n"]
    and whose value is not empty and does not end with white space,
    [get_command_list] gives back [instruction + " " + value] for every
    instruction that is not a comment. *)
Theorem get_command_list_of_consistent_records (st : list command) :
  Forall (fun r => content_consistent r /\
                   value r <> "" /\
                   ends_with_space (value r) = false) st ->
  get_command_list st
  = map (fun r => instruction r ++ " " ++ value r)
      (filter (fun r => negb (is_instruction "COMMENT" r)) st).
Proof.
  intros Hall. unfold get_command_list. rewrite get_command_list_fold.
  cbn [app]. apply map_ext_in. intros r Hin.
  apply filter_In in Hin as [Hin _].
  rewrite Forall_forall in Hall. destruct (Hall r Hin) as (Hc & Hne & Hend).
  unfold content_consistent in Hc. rewrite Hc.
  rewrite <- !append_assoc. rewrite rstrip_space_newline.
  apply rstrip_space_fixed.
  - rewrite ends_with_space_append by exact Hne. exact Hend.
  - destruct (instruction r); discriminate.
Qed.

Lemma get_command_list_of_consistent_records_witness :
  get_command_list (structure scenario_two_stage)
  = ["FROM ubuntu:20.04"; "RUN make"; "FROM alpine@sha256:ef01";
     "ADD ./src /dst"].
Proof.
  rewrite (get_command_list_of_consistent_records (structure scenario_two_stage)).
  - reflexivity.
  - repeat constructor; discriminate.
Defined.


(** X21.  When every parent image already has a digest type or a digest,
    [expand_from_images] asks nothing and logs nothing: the trace of the run
    is empty and [parent_images] is what it was, whether the run returns or
    raises. *)
Theorem pinned_parent_images_need_no_lookup
  (ext : External) (dfobj : Dockerfile) :
  (forall ref, In ref (parent_images dfobj) ->
               unpinned (parse_image_string ref) = false) ->
  trace (snd (run expand_from_images dfobj)) = [] /\
  parent_images (df (snd (run expand_from_images dfobj))) = parent_images dfobj.
Proof.
  intros Hall.
  destruct (expand_from_images_frame dfobj _ _
              (surjective_pairing (run expand_from_images dfobj))) as [Hp Ht].
  rewrite Hp, Ht. clear Hp Ht.
  induction (parent_images dfobj) as [|ref pis IH]; [now split|].
  destruct IH as [IHt IHp]; [intros r Hr; apply Hall; now right|].
  assert (Hun := Hall ref (or_introl eq_refl)).
  cbn [flat_map map]. unfold pin_events at 1, pinned_entry at 1.
  rewrite Hun. cbn [app]. rewrite IHt, IHp. now split.
Qed.

Lemma pinned_parent_images_need_no_lookup_witness :
  trace
    (snd (@run ubuntu_registry unit expand_from_images
            (dockerfile_of
               [Command "FROM" "alpine@sha256:ef01" (line "FROM alpine@sha256:ef01")]
               None None ["alpine@sha256:ef01"])))
  = [].
Proof.
  apply (pinned_parent_images_need_no_lookup ubuntu_registry
           (dockerfile_of
              [Command "FROM" "alpine@sha256:ef01" (line "FROM alpine@sha256:ef01")]
              None None ["alpine@sha256:ef01"])).
  intros ref [<- | []]. reflexivity.
Defined.

(** ** One call of [str.replace], read on the pieces of the text *)

Section Pieces.

Import Str.
Local Open Scope list_scope.

Lemma pieces_from_skip (old : string) (k : nat) (s : string) :
  pieces_from old k s = pieces_from old 0 (drop k s).
Proof.
  revert k; induction s as [|c s IH]; intros [|k]; cbn [pieces_from drop];
    try reflexivity.
  rewrite IH. now destruct s.
Qed.










End Pieces.

(** ** A pass on text whose references are set apart *)

Section Segments.

Import Str.
Local Open Scope list_scope.
















Lemma simple_text_keys (ks ks' : list string) (segs : list segment) :
  (forall k, In k ks' -> In k ks) ->
  simple_text ks segs = true -> simple_text ks' segs = true.
Proof.
  intros Hsub. induction segs as [|g rest IH]; intros Hs; [reflexivity|].
  destruct g as [t | [|] k'].
  - cbn [simple_text] in *. apply andb_true_iff in Hs as [Ht Hrest].
    now rewrite Ht, IH.
  - cbn [simple_text] in *. apply andb_true_iff in Hs as [Hk' Hrest].
    now rewrite Hk', IH.
  - cbn [simple_text] in *. apply andb_true_iff in Hs as [Hs Hrest].
    apply andb_true_iff in Hs as [Hs Hfollow].
    apply andb_true_iff in Hs as [Hk' Hshort].
    rewrite Hk', (IH Hrest). cbn [andb]. rewrite andb_true_r.
    apply andb_true_iff. split.
    + unfold no_shorter_key in *. rewrite forallb_forall in *.
      intros k Hk. apply Hshort. now apply Hsub.
    + destruct rest as [|[[|c t]|b k''] rest']; try discriminate;
        [reflexivity|].
      unfold delimiter in *. rewrite forallb_forall in *.
      intros k Hk. apply Hfollow. now apply Hsub.
Qed.

End Segments.

Section SegmentsApp.

Local Open Scope list_scope.





End SegmentsApp.






(** Why a reference [$NAME] has to be followed by a character that is in no
    key: with [{A: x, xB: y}] the value of A and the text after it spell the
    later key, and [echo $$AB] ends as [echo y]. *)
Example inserted_value_joins_a_later_key :
  substitute joining_dict "echo $$AB" = "echo y" /\
  value (replace_env joining_dict (Command "RUN" "echo $$AB" (line "RUN echo $$AB")))
  = "echo y".
Proof. split; reflexivity. Qed.
